(** * simple-menu: the navigation core, embedded in Rocq

    A shallow embedding of the parts of [simple_menu] that carry the
    navigation engine: the token codec of [item/base.py], the level shift of
    [item/menu_inline.py], the rendering and the two picker adapters of
    [interface.py], [Menu.show] of [item/menu.py] and the shared cache of
    [BaseItem.get_shared_data].

    Conventions.
    - A Python [str] is a list of Unicode code points ([list N]); [py] turns
      an ASCII literal into one.
    - A Python call that may raise returns a [result]: [Ok v] or [Raise e].
    - External processes (the picker, the tools behind [set_text] and
      [execute]) are inputs of the model, gathered in [World]. *)

From Stdlib Require Import ZArith QArith Ascii String List.
From stdpp Require Import gmap list strings.

Set Default Proof Using "Type".

(** ** Python strings *)

Abbreviation str := (list N).

(** [py "abc"] is the Python literal ["abc"] (ASCII literals only). *)
Definition py (s : string) : str :=
  map N_of_ascii (list_ascii_of_string s).

(** Exceptions the embedded code can raise. *)
Inductive exn : Type :=
| ValueError
| IndexError
| AttributeError
| UnboundLocalError
| NotImplementedError
| ModuleNotFoundError
| DecodeStringError
| SystemExit (code : Z).

Inductive result (A : Type) : Type :=
| Ok (a : A)
| Raise (e : exn).
Arguments Ok {A} a.
Arguments Raise {A} e.

Definition bind {A B} (m : result A) (f : A -> result B) : result B :=
  match m with
  | Ok a => f a
  | Raise e => Raise e
  end.

Module PyStr.

(** [str.isspace] on one code point: CPython's [_PyUnicode_IsWhitespace]. *)
Definition isspace (c : N) : bool :=
  ((9 <=? c) && (c <=? 13) || (28 <=? c) && (c <=? 32)
   || (c =? 133) || (c =? 160) || (c =? 5760)
   || (8192 <=? c) && (c <=? 8202)
   || (c =? 8232) || (c =? 8233) || (c =? 8239) || (c =? 8287)
   || (c =? 12288))%N.

(** Line boundaries of [str.splitlines]: CPython's [_PyUnicode_IsLinebreak]. *)
Definition islinebreak (c : N) : bool :=
  ((10 <=? c) && (c <=? 13) || (28 <=? c) && (c <=? 30)
   || (c =? 133) || (c =? 8232) || (c =? 8233))%N.

Definition eqb (a b : str) : bool := bool_decide (a = b).

(** [s.startswith(p)]. *)
Fixpoint startswith (p s : str) : bool :=
  match p, s with
  | [], _ => true
  | _ :: _, [] => false
  | a :: p', b :: s' => (a =? b)%N && startswith p' s'
  end.

Fixpoint lstrip (s : str) : str :=
  match s with
  | [] => []
  | c :: s' => if isspace c then lstrip s' else s
  end.

Fixpoint rstrip (s : str) : str :=
  match s with
  | [] => []
  | c :: s' =>
      match rstrip s' with
      | [] => if isspace c then [] else [c]
      | r => c :: r
      end
  end.

(** [s.strip()]. *)
Definition strip (s : str) : str := rstrip (lstrip s).

(** [s.lower()], on the ASCII letters. *)
Definition lower (s : str) : str :=
  map (fun c => if ((65 <=? c) && (c <=? 90))%N then (c + 32)%N else c) s.

(** Puts [c] in front of the token being read. *)
Definition cons_head (c : N) (l : list str) : list str :=
  match l with
  | t :: ts => (c :: t) :: ts
  | [] => [[c]]
  end.

(** The scan of [s.split(sep)] for a non-empty [sep]: left to right, an
    occurrence of [sep] closes the current token and its characters are
    skipped ([skip] counts those still to skip). *)
Fixpoint split_scan (sep : str) (skip : nat) (s : str) : list str :=
  match s with
  | [] => [[]]
  | c :: s' =>
      match skip with
      | S k => split_scan sep k s'
      | O =>
          if startswith sep s
          then [] :: split_scan sep (length sep - 1) s'
          else cons_head c (split_scan sep 0 s')
      end
  end.

(** [s.split(sep)]: an empty separator is a [ValueError]. *)
Definition split (s sep : str) : result (list str) :=
  match sep with
  | [] => Raise ValueError
  | _ :: _ => Ok (split_scan sep 0 s)
  end.

(** [sep.join(l)]. *)
Fixpoint join (sep : str) (l : list str) : str :=
  match l with
  | [] => []
  | [t] => t
  | t :: ts => t ++ sep ++ join sep ts
  end.

(** The scan of [s.replace(old, new)] for a non-empty [old]. *)
Fixpoint replace_scan (old new : str) (skip : nat) (s : str) : str :=
  match s with
  | [] => []
  | c :: s' =>
      match skip with
      | S k => replace_scan old new k s'
      | O =>
          if startswith old s
          then new ++ replace_scan old new (length old - 1) s'
          else c :: replace_scan old new 0 s'
      end
  end.

(** [s.replace(old, new)]; an empty [old] matches before every character
    and at the end. *)
Definition replace (s old new : str) : str :=
  match old with
  | [] => new ++ flat_map (fun c => c :: new) s
  | _ :: _ => replace_scan old new 0 s
  end.

(** [d] occurs in [v] as a substring. *)
Definition occurs (d v : str) : Prop := exists a b, v = a ++ d ++ b.

End PyStr.

(** ** item/base.py: the token codec *)

Inductive ItemTextType : Type := menu | action | notification | raw.

(** The value of a member of the [StrEnum]. *)
Definition ItemTextType_value (t : ItemTextType) : str :=
  match t with
  | menu => py "<menu>"
  | action => py "<action>"
  | notification => py "<notification>"
  | raw => []
  end.

(** [ItemTextType[name]], when [name in {i.name for i in ItemTextType}]. *)
Definition ItemTextType_by_name (name : str) : option ItemTextType :=
  if PyStr.eqb name (py "menu") then Some menu
  else if PyStr.eqb name (py "action") then Some action
  else if PyStr.eqb name (py "notification") then Some notification
  else if PyStr.eqb name (py "raw") then Some raw
  else None.

Record ItemTexts : Type := mkItemTexts {
  type_ : str;
  category : str;
  subcategory : str;
  status : str;
  text : str;
  menu_text : str  (* the field [menu], used by Interface *)
}.

(** [ItemTexts()]. *)
Definition ItemTexts_default : ItemTexts :=
  mkItemTexts (ItemTextType_value raw) [] [] [] [] [].

(** [BaseItem.str2item_texts]. *)
Definition str2item_texts (text token_separator : str)
  : result (ItemTexts * str) :=
  bind (PyStr.split text token_separator) (fun tokens =>
    match tokens with
    | t0 :: t1 :: t2 :: t3 :: t4 :: rest =>
        match ItemTextType_by_name (PyStr.strip t0) with
        | Some item_type =>
            let text' :=
              match item_type with
              | raw => t4
              | _ => PyStr.strip t4
              end in
            Ok (mkItemTexts (ItemTextType_value item_type)
                  (PyStr.strip t1) (PyStr.strip t2) (PyStr.strip t3)
                  text' [],
                PyStr.join token_separator rest)
        | None => Ok (ItemTexts_default, text)
        end
    | _ => Ok (ItemTexts_default, text)
    end).

(** ** configuration.py, constants.py *)

Inductive interface_t : Type := rofi | fzf.

Record Configuration : Type := mkConfiguration {
  interface : interface_t;
  token_separators : list str
}.

Definition TOKEN_SEPARATORS : list str := [py "::"; py ",,"; py ";;"].

Definition QUIT_EXIT_CODE : Z := 250.

(** The dictionary [text_substitutions], in insertion order. *)
Definition text_substitutions : list (str * str) :=
  [ (py "<ok>", [0xf00c%N]);
    (py "<paused>", [0xf04c%N]);
    (py "<stopped>", [0xf04db%N]);
    (py "<error>", [0x2716%N]);
    (py "<warning>", [0xea6c%N]);
    (py "<running>", [0xe602%N]);
    (py "<playing>", [0xf075a%N]);
    (py "<recording>", [0xf0ec2%N]);
    (py "<microphone>", [0xf036c%N]);
    (py "<microphone-muted>", [0xf036d%N]);
    (py "<volume-min>", [0xf057f%N]);
    (py "<volume-med>", [0xf0580%N]);
    (py "<volume-max>", [0xf057e%N]);
    (py "<volume-muted>", [0xf0581%N]);
    (py "<upper>", [0xeb71%N]);
    (py "<lower>", [0xeb6e%N]);
    (py "<poweroff>", [0x23fb%N]);
    (py "<reload>", [0xead2%N]);
    (py "<speaker>", [0xf04c3%N]);
    (py "<speaker-muted>", [0xf04c4%N]);
    (py "<configuration>", [0xe615%N]);
    (py "<change>", [0xf0ec%N]);
    (py "<folder>", [0xea83%N]);
    (py "<menu>", [0xf0ca%N]);
    (py "<action>", [0xf140b%N]);
    (py "<notification>", [0xf0eb%N]) ].

(** ** item/base.py: items *)

(** An instance of [BaseItem] or of a subclass; [attrs] holds what a
    subclass constructor adds. *)
Record BaseItem : Type := mkBaseItem {
  item_type : str;
  texts : ItemTexts;
  value : str;
  raw_value : str;
  attrs : list str
}.

Definition set_texts (t : ItemTexts) (i : BaseItem) : BaseItem :=
  mkBaseItem (item_type i) t (value i) (raw_value i) (attrs i).

Definition set_menu_text (m : str) (i : BaseItem) : BaseItem :=
  let t := texts i in
  set_texts (mkItemTexts (type_ t) (category t) (subcategory t) (status t)
               (text t) m) i.

(** [BaseItem.delimiter]. *)
Definition delimiter (configuration : Configuration) : result str :=
  match token_separators configuration with
  | d :: _ => Ok d
  | [] => Raise IndexError
  end.

(** [BaseItem.visible]. *)
Definition visible (i : BaseItem) : bool :=
  match text (texts i) with
  | [] => false
  | _ :: _ => true
  end.

(** [BaseItem.identifier]. *)
Definition identifier (i : BaseItem) : str :=
  item_type i ++ py ":" ++ raw_value i.

(** [BaseItem.__init__] for a class whose [item_type] is [name]. *)
Definition BaseItem_init (name : str) (configuration : Configuration)
    (value0 : str) : result BaseItem :=
  bind (delimiter configuration) (fun d =>
  bind (str2item_texts value0 d) (fun '(t, v) =>
  Ok (mkBaseItem name t v value0 []))).

(** A class of items, as [Menu.show] uses it: its name and its
    constructor. *)
Record ItemClass : Type := mkItemClass {
  cls_item_type : str;
  cls_init : Configuration -> str -> result BaseItem
}.

(** [ItemExternal] keeps the constructor of [BaseItem]. *)
Definition ItemExternal : ItemClass :=
  mkItemClass (py "ItemExternal") (BaseItem_init (py "ItemExternal")).

(** [ItemZerotierNetwork.__init__]: the value is unpacked into exactly
    two names. *)
Definition ItemZerotierNetwork_init (configuration : Configuration)
    (value0 : str) : result BaseItem :=
  bind (BaseItem_init (py "ItemZerotierNetwork") configuration value0)
    (fun self =>
  bind (delimiter configuration) (fun d =>
  bind (PyStr.split value0 d) (fun tokens =>
    match tokens with
    | [network_id; network_name] =>
        Ok (mkBaseItem (item_type self) (texts self) (value self)
              (raw_value self) [network_id; network_name])
    | _ => Raise ValueError
    end))).

Definition ItemZerotierNetwork : ItemClass :=
  mkItemClass (py "ItemZerotierNetwork") ItemZerotierNetwork_init.

(** ** interface.py *)

Inductive next_action_t : Type := selected | restart | back | quit.

Definition next_action_str (a : next_action_t) : str :=
  match a with
  | selected => py "selected"
  | restart => py "restart"
  | back => py "back"
  | quit => py "quit"
  end.

(** Truth value of a [float]. *)
Definition truthy (timeout : Q) : bool := negb (Qeq_bool timeout 0).

(** One run of the picker process: what it writes, its exit status, and
    how long the user takes. *)
Record picker_run : Type := mkPickerRun {
  stdout : str;
  returncode : Z;
  duration : Q
}.

(** The outside of the program. *)
Record World : Type := mkWorld {
  env_RAW : bool;        (* [os.environ.get("RAW", "")] is not empty *)
  is_console : bool;     (* [FzfInterface.is_console()] *)
  (* what [set_text] leaves in [self.texts], or what it raises *)
  w_set_text : BaseItem -> result ItemTexts;
  (* the picker, from its title, selected row and input lines *)
  w_picker : str -> nat -> list str -> picker_run;
  (* how [execute] of the item ends *)
  w_execute : BaseItem -> result unit
}.

(** [text_apply_tokens] of [RofiInterface] and of [FzfInterface]. *)
Definition text_apply_tokens (k : interface_t) (w : World) (t : str) : str :=
  let raw_mode :=
    match k with
    | rofi => env_RAW w
    | fzf => env_RAW w || is_console w
    end in
  if raw_mode then t
  else fold_left (fun acc kv => PyStr.replace acc (fst kv) (snd kv))
         text_substitutions t.

Section Interface.

(** The method [text_apply_tokens] of the adapter. *)
Variable apply_tokens : str -> str.

(** [Interface.formatted_texts]. *)
Definition formatted_texts (item : ItemTexts) : ItemTexts :=
  let category' := apply_tokens (PyStr.strip (category item)) in
  let subcategory' := apply_tokens (PyStr.strip (subcategory item)) in
  let status' := apply_tokens (PyStr.strip (status item)) in
  let text' := apply_tokens (text item) in
  let type' := apply_tokens (type_ item) in
  mkItemTexts type' category' subcategory' status' text' [].

Definition space : N := 32%N.

(** [f"{s:<{n}}"] and [f"{s:>{n}}"]. *)
Definition ljust (s : str) (n : nat) : str :=
  s ++ replicate (n - length s) space.
Definition rjust (s : str) (n : nat) : str :=
  replicate (n - length s) space ++ s.

Definition is_raw (i : BaseItem) : bool :=
  PyStr.eqb (type_ (texts i)) (ItemTextType_value raw).

(** [max(len(self.formatted_texts(i.texts).f) for i in non_raw_items)]. *)
Definition max_len (f : ItemTexts -> str) (non_raw_items : list BaseItem)
  : nat :=
  max_list (map (fun i => length (f (formatted_texts (texts i))))
              non_raw_items).

(** The body of the loop over [non_raw_items]. *)
Definition menu_line (type_len category_len subcategory_len status_len
    text_len : nat) (item : BaseItem) : str :=
  let ft := formatted_texts (texts item) in
  let t0 := [space] ++ ljust (type_ ft) type_len in
  let t1 :=
    if Nat.eqb category_len 0 then t0
    else t0 ++ [space] ++ rjust (category ft) category_len in
  let t2 :=
    if Nat.eqb subcategory_len 0 then t1
    else
      match subcategory ft with
      | _ :: _ => t1 ++ py "/" ++ ljust (subcategory ft) subcategory_len
      | [] => t1 ++ replicate (subcategory_len + 1) space
      end in
  let t3 :=
    if Nat.eqb status_len 0 then t2
    else t2 ++ [space; space] ++ rjust (status ft) status_len in
  if Nat.eqb text_len 0 then t3
  else t3 ++ [space; space] ++ text ft.

(** [Interface.format_items_text]: the items with [texts.menu] set. *)
Definition format_items_text (items : list BaseItem) : list BaseItem :=
  let non_raw_items := List.filter (fun i => negb (is_raw i)) items in
  let items1 :=
    match non_raw_items with
    | [] => items
    | _ :: _ =>
        let type_len := max_len type_ non_raw_items in
        let category_len := max_len category non_raw_items in
        let subcategory_len := max_len subcategory non_raw_items in
        let status_len := max_len status non_raw_items in
        let text_len := max_len text non_raw_items in
        map (fun item =>
               if is_raw item then item
               else set_menu_text
                      (menu_line type_len category_len subcategory_len
                         status_len text_len item) item)
          items
    end in
  map (fun item =>
         if is_raw item then set_menu_text (text (texts item)) item
         else item)
    items1.

End Interface.

(** [Interface.get_selected_item]. *)
Definition get_selected_item (items : list BaseItem) (selected_text : str)
  : option BaseItem :=
  List.find (fun item => PyStr.eqb (menu_text (texts item)) selected_text)
    items.

(** A non-empty string, or [None]: the values that are true. *)
Definition nonempty (s : str) : option str :=
  match s with
  | [] => None
  | _ :: _ => Some s
  end.

(** [asyncio.wait_for] gives up when the picker takes longer than a
    non-zero [timeout]. *)
Definition timeout_raised (timeout : Q) (p : picker_run) : bool :=
  truthy timeout && negb (Qle_bool (duration p) timeout).

(** [RofiInterface.run_menu], after the process has been run. *)
Definition Rofi_run_menu (items : list BaseItem) (timeout : Q)
    (p : picker_run) : result (next_action_t * option BaseItem) :=
  if timeout_raised timeout p then Ok (restart, None)
  else
    let selected_text := nonempty (PyStr.rstrip (stdout p)) in
    let selected_item :=
      match selected_text with
      | Some t => get_selected_item items t
      | None => None
      end in
    bind
      (if (returncode p =? 10)%Z then Ok (Some restart)
       else if (returncode p =? 11)%Z then Raise (SystemExit QUIT_EXIT_CODE)
       else if (returncode p =? 1)%Z then Ok (Some back)
       else match selected_text with
            | Some _ => Ok (Some selected)
            | None => Ok None  (* [next_action] stays unbound *)
            end)
      (fun next_action =>
         let next_action' :=
           match selected_text, selected_item with
           | Some _, None => Some restart
           | _, _ => next_action
           end in
         match next_action' with
         | Some a => Ok (a, selected_item)
         | None => Raise UnboundLocalError
         end).

(** The scan of [s.splitlines()]; ["\r\n"] is one boundary ([after_cr]
    tells that the previous character was ["\r"]). *)
Fixpoint splitlines_scan (after_cr : bool) (s : str) : list str :=
  match s with
  | [] => []
  | c :: s' =>
      if after_cr && (c =? 10)%N then splitlines_scan false s'
      else if PyStr.islinebreak c then [] :: splitlines_scan (c =? 13)%N s'
      else PyStr.cons_head c (splitlines_scan false s')
  end.

Definition splitlines (s : str) : list str := splitlines_scan false s.

(** [FzfInterface.run_menu], after the process has been run. *)
Definition Fzf_run_menu (items : list BaseItem) (timeout : Q)
    (p : picker_run) : result (next_action_t * option BaseItem) :=
  if timeout_raised timeout p then Ok (restart, None)
  else
    let lines := splitlines (stdout p) in
    let '(key, selected_text, selected_item) :=
      match lines with
      | l0 :: rest =>
          match rest with
          | [l1] =>
              (Some (PyStr.rstrip l0), Some (PyStr.rstrip l1),
               get_selected_item items (PyStr.rstrip l1))
          | _ => (Some (PyStr.rstrip l0), None, None)
          end
      | [] => (None, None, None)
      end in
    let key_is (name : string) :=
      match key with
      | Some k => PyStr.eqb k (py name)
      | None => false
      end in
    if key_is "ctrl-r" || key_is "f5" then Ok (restart, selected_item)
    else if key_is "ctrl-q" then Raise (SystemExit QUIT_EXIT_CODE)
    else if key_is "esc" then Ok (back, selected_item)
    else
      match selected_text with
      | Some (_ :: _) => Ok (selected, selected_item)
      | None => Ok (restart, selected_item)
      | Some [] => Ok (back, selected_item)
      end.

(** Index of the first element that satisfies [p]. *)
Fixpoint first_index {A} (p : A -> bool) (l : list A) : option nat :=
  match l with
  | [] => None
  | x :: l' => if p x then Some 0 else option_map S (first_index p l')
  end.

(** [Interface.run] for the adapter [k]. *)
Definition Interface_run (w : World) (k : interface_t)
    (title last_item_id : str) (items : list BaseItem) (timeout : Q)
  : result (next_action_t * option BaseItem) :=
  let selected_row :=
    match first_index
            (fun item => PyStr.eqb (identifier item) last_item_id) items with
    | Some index => index
    | None => 0
    end in
  let items' := format_items_text (text_apply_tokens k w) items in
  let lines := map (fun i => menu_text (texts i)) items' in
  match k with
  | rofi =>
      Rofi_run_menu items' timeout (w_picker w title selected_row lines)
  | fzf =>
      Fzf_run_menu items' timeout
        (w_picker w (title ++ py " >") selected_row lines)
  end.

(** ** item/menu.py *)

(** What [Menu.show] does to the world, in order. *)
Inductive event : Type :=
| SharedCleared            (* [self.shared.clear()] *)
| ErrorLogged              (* [logger.error] of the handler *)
| Executed (i : BaseItem). (* [await selected_item.execute()] *)

(** Computations that log events and may raise. *)
Definition M (A : Type) : Type := list event -> result A * list event.

Definition retM {A} (a : A) : M A := fun tr => (Ok a, tr).

Definition bindM {A B} (m : M A) (f : A -> M B) : M B :=
  fun tr =>
    match m tr with
    | (Ok a, tr') => f a tr'
    | (Raise e, tr') => (Raise e, tr')
    end.

Definition liftM {A} (r : result A) : M A := fun tr => (r, tr).

Definition emit (e : event) : M unit := fun tr => (Ok tt, tr ++ [e]).

Notation "'let*' x ':=' m 'in' k" := (bindM m (fun x => k))
  (at level 10, x name, m at level 200, k at level 200).

(** [mapM] in the error monad, left to right. *)
Fixpoint map_result {A B} (f : A -> result B) (l : list A)
  : result (list B) :=
  match l with
  | [] => Ok []
  | x :: l' =>
      bind (f x) (fun y => bind (map_result f l') (fun ys => Ok (y :: ys)))
  end.

(** A [Menu]; [after_set_items] and [after_set_title] are what the hooks
    [set_items] and [set_title] leave in [self.items] and [self.title]
    (the class [Menu] itself leaves them as they are). *)
Record Menu : Type := mkMenu {
  menu_item_type : str;
  menu_title : str;
  keep_opened : bool;
  loop_timeout : Q;
  menu_items : list (ItemClass * str);
  configuration : Configuration;
  after_set_items : result (list (ItemClass * str));
  after_set_title : result str
}.

(** [asyncio.gather] over [set_text_wrapper]: every item gets its texts;
    the exception reported is that of the first item, in list order, whose
    [set_text] raises. *)
Definition gather_set_text (w : World) (items_instances : list BaseItem)
  : result (list BaseItem) :=
  map_result
    (fun item => bind (w_set_text w item) (fun t => Ok (set_texts t item)))
    items_instances.

(** [Menu.show] up to the end of the [try] statement: the instances with
    their texts and the title, or [None] when the handler has returned. *)
Definition show_resolve (w : World) (self : Menu)
  : M (option (str * list BaseItem)) :=
  let* _ := emit SharedCleared in
  let* items := liftM (after_set_items self) in
  let* title := liftM (after_set_title self) in
  let* items_instances :=
    liftM (map_result
             (fun kv => cls_init (fst kv) (configuration self) (snd kv))
             items) in
  match gather_set_text w items_instances with
  | Ok instances => retM (Some (title, instances))
  | Raise DecodeStringError => (let* _ := emit ErrorLogged in retM None)
  | Raise e => liftM (Raise e)
  end.

(** [Menu.show] from the answer of the interface on. *)
Definition show_act (w : World) (loop_timeout0 : Q)
    (action : next_action_t) (selected_item : option BaseItem)
  : M (str * str) :=
  let action' :=
    match action with
    | selected => if truthy loop_timeout0 then back else selected
    | a => a
    end in
  let* _ :=
   match action' with
   | selected =>
       match selected_item with
       | None => liftM (Raise AttributeError)  (* [None.identifier] *)
       | Some item =>
           if PyStr.eqb (type_ (texts item)) (ItemTextType_value notification)
           then retM tt
           else (let* _ := emit (Executed item) in liftM (w_execute w item))
       end
   | _ => retM tt
   end in
  match selected_item with
  | Some item => retM (next_action_str action', identifier item)
  | None => retM (next_action_str action', [])
  end.

(** The visible items handed to the interface. *)
Definition visible_items (items_instances : list BaseItem) : list BaseItem :=
  List.filter visible items_instances.

(** [Menu.show]. *)
Definition show (w : World) (self : Menu) (last_item_id : str)
    (loop_timeout0 : Q) : M (str * str) :=
  let* r := show_resolve w self in
  match r with
  | None => retM ([], [])
  | Some (title, items_instances) =>
      let* a := liftM (Interface_run w (interface (configuration self)) title
                    last_item_id (visible_items items_instances)
                    loop_timeout0) in
      show_act w loop_timeout0 (fst a) (snd a)
  end.

(** The class [Menu] itself, built with the options already read. *)
Definition plain_Menu (configuration0 : Configuration) (title : str)
    (items : list (ItemClass * str)) : Menu :=
  mkMenu (py "Menu") title true 0 items configuration0 (Ok items) (Ok title).

(** ** item/items.py, item/menu_inline.py *)

(** The classes that [get_item_class] can return. *)
Inductive item_class : Type :=
| MenuInline_cls | MenuExternal_cls | ItemExternal_cls
| ItemSystemdUnit_cls | ItemZerotierNetwork_cls.

(** [get_item_class]; an unknown name ends the process.  The package has
    no module [simple_menu.item.item]: the [import] of the case [item]
    raises [ModuleNotFoundError], and so do those of the cases
    [audiomenu] and [syncthingmenu], whose modules [sound] and
    [syncthing] import it when they are loaded. *)
Definition get_item_class (name : str) : result item_class :=
  let n := PyStr.lower (PyStr.strip name) in
  if PyStr.eqb n (py "audiomenu") then Raise ModuleNotFoundError
  else if PyStr.eqb n (py "menu_inline") then Ok MenuInline_cls
  else if PyStr.eqb n (py "menu_external") then Ok MenuExternal_cls
  else if PyStr.eqb n (py "item") then Raise ModuleNotFoundError
  else if PyStr.eqb n (py "item_external") then Ok ItemExternal_cls
  else if PyStr.eqb n (py "syncthingmenu") then Raise ModuleNotFoundError
  else if PyStr.eqb n (py "systemdunit") then Ok ItemSystemdUnit_cls
  else if PyStr.eqb n (py "zerotiernetwork") then Ok ItemZerotierNetwork_cls
  else Raise (SystemExit 1).

(** [token_separators[i]]. *)
Definition separator (token_separators0 : list str) (i : nat) : result str :=
  match token_separators0 !! i with
  | Some s => Ok s
  | None => Raise IndexError
  end.

(** The loop of [get_item_type_value] that lowers the separators, for the
    levels in [levels]. *)
Definition reduce_levels (token_separators0 : list str) (levels : list nat)
    (inner_value : str) : result str :=
  fold_left
    (fun acc level =>
       bind acc (fun inner =>
       bind (separator token_separators0 (level + 1)) (fun hi =>
       bind (separator token_separators0 level) (fun lo =>
       Ok (PyStr.replace inner hi lo)))))
    levels (Ok inner_value).

(** [get_item_type_value]. *)
Definition get_item_type_value (value0 : str) (token_separators0 : list str)
  : result (item_class * str) :=
  bind (separator token_separators0 1) (fun sep1 =>
  bind (PyStr.split value0 sep1) (fun tokens =>
    match tokens with
    | [] => Raise IndexError  (* [pop] from an empty list *)
    | name :: tokens' =>
        bind (get_item_class name) (fun item_type0 =>
        bind (reduce_levels token_separators0
                (seq 0 (length token_separators0 - 1))
                (PyStr.join sep1 tokens'))
          (fun inner_value => Ok (item_type0, inner_value)))
    end)).

(** [MenuInline.set_items]: the new [self.items]. *)
Definition MenuInline_set_items (configuration0 : Configuration)
    (value0 : str) : result (list (item_class * str)) :=
  bind (delimiter configuration0) (fun d =>
  bind (PyStr.split value0 d) (fun items_text =>
    map_result
      (fun item_text =>
         get_item_type_value item_text (token_separators configuration0))
      items_text)).

(** ** item/menu.py: the options of a menu and [execute] *)

Inductive menu_option : Type :=
| title_option | keep_opened_option | loop_timeout_option.

(** The [case] that [tokens[0].strip().lower()] selects in
    [value2menu_options], or [None] for [case _]. *)
Definition menu_option_of (token : str) : option menu_option :=
  let name := PyStr.lower (PyStr.strip token) in
  if PyStr.eqb name (py "title") then Some title_option
  else if PyStr.eqb name (py "keep-opened") then Some keep_opened_option
  else if PyStr.eqb name (py "loop-timeout") then Some loop_timeout_option
  else None.

Section MenuOptions.

(** The builtins [int] and [float] on a string: the number read, or the
    [ValueError]. *)
Variable parse_int : str -> result Z.
Variable parse_float : str -> result Q.

(** The [while] loop of [value2menu_options]: the options read so far and
    the tokens left; [tokens[1]] of a single token is an [IndexError]. *)
Fixpoint menu_options_scan (title : str) (keep_opened0 : bool)
    (loop_timeout0 : Q) (tokens : list str)
  : result (str * bool * Q * list str) :=
  match tokens with
  | [] => Ok (title, keep_opened0, loop_timeout0, [])
  | t0 :: rest =>
      match menu_option_of t0 with
      | Some title_option =>
          match rest with
          | t1 :: rest' =>
              menu_options_scan t1 keep_opened0 loop_timeout0 rest'
          | [] => Raise IndexError
          end
      | Some keep_opened_option =>
          match rest with
          | t1 :: rest' =>
              bind (parse_int t1) (fun n =>
              menu_options_scan title (negb (n =? 0)%Z) loop_timeout0 rest')
          | [] => Raise IndexError
          end
      | Some loop_timeout_option =>
          match rest with
          | t1 :: rest' =>
              bind (parse_float t1) (fun timeout =>
              menu_options_scan title keep_opened0 timeout rest')
          | [] => Raise IndexError
          end
      | None => Ok (title, keep_opened0, loop_timeout0, tokens)
      end
  end.

(** [Menu.value2menu_options]. *)
Definition value2menu_options (configuration0 : Configuration)
    (value0 : str) : result (str * bool * Q * str) :=
  bind (separator (token_separators configuration0) 0) (fun sep0 =>
  bind (PyStr.split value0 sep0) (fun tokens =>
  bind (menu_options_scan (py "Menu") true 0 tokens)
    (fun '(title, keep_opened0, loop_timeout0, tokens') =>
  Ok (title, keep_opened0, loop_timeout0, PyStr.join sep0 tokens')))).

(** [Menu.__init__]: the item that [BaseItem.__init__] builds, with the
    value that the options leave, and the menu with its options. *)
Definition Menu_init (menu_items0 : list (ItemClass * str))
    (configuration0 : Configuration) (value0 : str)
  : result (BaseItem * Menu) :=
  bind (BaseItem_init (py "Menu") configuration0 value0) (fun self =>
  bind (value2menu_options configuration0 (value self))
    (fun '(title, keep_opened0, loop_timeout0, value') =>
  Ok (mkBaseItem (item_type self) (texts self) value' (raw_value self) [],
      mkMenu (py "Menu") title keep_opened0 loop_timeout0 menu_items0
        configuration0 (Ok menu_items0) (Ok title)))).

End MenuOptions.

(** [action in {"back", ""}]. *)
Definition leaves_menu (action : str) : bool :=
  PyStr.eqb action (py "back") || PyStr.eqb action [].

(** One call of [show] made by [execute]: the world it meets, and [self]
    as the hooks [set_items] and [set_title] of this call leave it.  The
    class [Menu] leaves [self] as it is; [MenuExternal.set_items] sets
    [items], [title], [keep_opened] and [loop_timeout] anew at every
    call. *)
Record show_call : Type := mkShowCall {
  call_world : World;
  call_self : Menu
}.

(** The first loop of [Menu.execute].  [self] is the menu as the last
    call of [show] left it: its [loop_timeout] is read again before every
    call.  The result is the menu, the last selection and the calls left,
    or [None] when the calls are used up before the loop ends. *)
Fixpoint execute_loop (self : Menu) (selection : str)
    (calls0 : list show_call) : M (option (Menu * str * list show_call)) :=
  match calls0 with
  | [] => retM None
  | c :: calls' =>
      let* r := show (call_world c) (call_self c) selection
                  (loop_timeout self) in
      if leaves_menu (fst r) then retM (Some (call_self c, snd r, calls'))
      else execute_loop (call_self c) (snd r) calls'
  end.

(** The second loop of [Menu.execute]; [keep_opened] is read after every
    call of [show]. *)
Fixpoint execute_normally (selection : str) (calls0 : list show_call)
  : M (option unit) :=
  match calls0 with
  | [] => retM None
  | c :: calls' =>
      let* r := show (call_world c) (call_self c) selection 0 in
      if negb (keep_opened (call_self c)) || leaves_menu (fst r)
      then retM (Some tt)
      else execute_normally (snd r) calls'
  end.

(** [Menu.execute] of the menu [self], as its constructor built it. *)
Definition Menu_execute (self : Menu) (calls0 : list show_call)
  : M (option unit) :=
  let* r :=
    if truthy (loop_timeout self) then execute_loop self [] calls0
    else retM (Some (self, [], calls0)) in
  match r with
  | Some (_, selection, calls') => execute_normally selection calls'
  | None => retM None
  end.


(** The level shift in the words of the specification: reading [s] from
    left to right, every occurrence of a separator of level [i+1] becomes
    the separator of level [i]; where several separators match, the longest
    one is taken. *)
Fixpoint match_separator (lo : str) (higher : list str) (s : str)
  : option (str * nat) :=
  match higher with
  | [] => None
  | hi :: higher' =>
      let here :=
        match hi with
        | _ :: _ => if PyStr.startswith hi s then Some (lo, length hi)
                    else None
        | [] => None
        end in
      match match_separator hi higher' s, here with
      | Some (r, n), Some (r', n') =>
          if n' <? n then Some (r, n) else Some (r', n')
      | Some m, None => Some m
      | None, _ => here
      end
  end.

Definition find_separator (seps : list str) (s : str) : option (str * nat) :=
  match seps with
  | lo :: higher => match_separator lo higher s
  | [] => None
  end.

Fixpoint shift_scan (seps : list str) (skip : nat) (s : str) : str :=
  match s with
  | [] => []
  | c :: s' =>
      match skip with
      | S k => shift_scan seps k s'
      | O =>
          match find_separator seps s with
          | Some (lower, n) => lower ++ shift_scan seps (n - 1) s'
          | None => c :: shift_scan seps 0 s'
          end
      end
  end.

Definition shift_down (seps : list str) (v : str) : str := shift_scan seps 0 v.

(** The separators are not empty and no character belongs to two of them
    (the default ["::"], [",,"], [";;"] are so). *)
Definition separators_apart (seps : list str) : Prop :=
  Forall (fun s => s <> []) seps /\
  forall i j si sj c,
    seps !! i = Some si -> seps !! j = Some sj -> i <> j ->
    c ∈ si -> c ∈ sj -> False.

(** The rendered line in the words of the specification: every column,
    the text as well, at its maximum width. *)
Definition spec_menu_line (apply_tokens : str -> str)
    (type_len category_len subcategory_len status_len text_len : nat)
    (item : BaseItem) : str :=
  let ft := formatted_texts apply_tokens (texts item) in
  [space] ++ ljust (type_ ft) type_len
  ++ (if Nat.eqb category_len 0 then []
      else [space] ++ rjust (category ft) category_len)
  ++ (if Nat.eqb subcategory_len 0 then []
      else match subcategory ft with
           | _ :: _ => py "/" ++ ljust (subcategory ft) subcategory_len
           | [] => replicate (subcategory_len + 1) space
           end)
  ++ (if Nat.eqb status_len 0 then []
      else [space; space] ++ rjust (status ft) status_len)
  ++ (if Nat.eqb text_len 0 then []
      else [space; space] ++ ljust (text ft) text_len).

(** ** BaseItem.get_shared_data under cooperative scheduling

    Every call of [get_shared_data] is a task; a task runs until it waits
    (for the lock, or for [set_shared_data]) and then any other task may
    run.  The state holds the class-level dictionary [shared], the locks
    that are held (one lock per variant, named by its [item_type]) and the
    log of the calls of [set_shared_data]. *)
Module SharedCache.
Section Cache.

(** The type of the shared values. *)
Context {V : Type}.

(** Where a task stands in [get_shared_data]. *)
Inductive pc : Type :=
| Start        (* before [async with self.lock] *)
| InLock       (* the lock is held, before the test *)
| Computing    (* waiting for [await self.set_shared_data()] *)
| Leaving      (* at the end of the [async with] block *)
| Released     (* before [return self.shared[self.item_type]] *)
| Done (v : V) (* returned [v] *)
| Failed.      (* left by an exception *)

Record state : Type := mkState {
  tasks : list (str * pc);   (* item_type and position of every call *)
  shared : gmap str V;
  locked : gset str;
  calls : list str           (* item_type of every [set_shared_data()] *)
}.

(** How a pending [set_shared_data()] ends. *)
Inductive answer : Type :=
| Returns (v : V)
| Raises.

Definition set_task (i : nat) (t : str * pc) (s : state) : state :=
  mkState (<[i := t]> (tasks s)) (shared s) (locked s) (calls s).

(** One move of task [i]; [a] is used when [set_shared_data] ends. *)
Definition step_task (i : nat) (a : answer) (s : state) : option state :=
  match tasks s !! i with
  | Some (x, Start) =>
      if decide (x ∈ locked s) then None
      else Some (mkState (<[i := (x, InLock)]> (tasks s)) (shared s)
                   ({[x]} ∪ locked s) (calls s))
  | Some (x, InLock) =>
      match shared s !! x with
      | None =>
          Some (mkState (<[i := (x, Computing)]> (tasks s)) (shared s)
                  (locked s) (x :: calls s))
      | Some _ => Some (set_task i (x, Leaving) s)
      end
  | Some (x, Computing) =>
      match a with
      | Returns v =>
          Some (mkState (<[i := (x, Leaving)]> (tasks s))
                  (<[x := v]> (shared s)) (locked s) (calls s))
      | Raises =>
          Some (mkState (<[i := (x, Failed)]> (tasks s)) (shared s)
                  (locked s ∖ {[x]}) (calls s))
      end
  | Some (x, Leaving) =>
      Some (mkState (<[i := (x, Released)]> (tasks s)) (shared s)
              (locked s ∖ {[x]}) (calls s))
  | Some (x, Released) =>
      match shared s !! x with
      | Some v => Some (set_task i (x, Done v) s)
      | None => Some (set_task i (x, Failed) s)  (* [KeyError] *)
      end
  | Some (_, Done _) | Some (_, Failed) | None => None
  end.

Definition step (s s' : state) : Prop :=
  exists i a, step_task i a s = Some s'.

(** Right after [self.shared.clear()]: the calls [variants] are about to
    start, no lock is held. *)
Definition initial (variants : list str) : state :=
  mkState (map (fun x => (x, Start)) variants) ∅ ∅ [].

Definition reachable (variants : list str) (s : state) : Prop :=
  rtc step (initial variants) s.

(** Runs a schedule: which task moves, and the answer it gets. *)
Fixpoint run (schedule : list (nat * answer)) (s : state) : option state :=
  match schedule with
  | [] => Some s
  | (i, a) :: schedule' =>
      match step_task i a s with
      | Some s' => run schedule' s'
      | None => None
      end
  end.

(** Number of calls of [set_shared_data] made for the variant [x]. *)
Definition calls_of (x : str) (s : state) : nat :=
  length (List.filter (fun y => bool_decide (y = x)) (calls s)).

(** The values returned so far to the calls of the variant [x]. *)
Definition returned (x : str) (s : state) : list V :=
  flat_map (fun t => match t with
                     | (y, Done v) => if bool_decide (y = x) then [v] else []
                     | _ => []
                     end) (tasks s).

(** Every call of the variant [x] has returned. *)
Definition all_returned (x : str) (s : state) : Prop :=
  forall i p, tasks s !! i = Some (x, p) -> exists v, p = Done v.

End Cache.
Arguments pc : clear implicits.
Arguments state : clear implicits.
Arguments answer : clear implicits.
End SharedCache.

(** * Properties *)

(** ** Python strings *)

Section PyStrFacts.
Import PyStr.

Lemma eqb_eq (a b : str) : eqb a b = true <-> a = b.
Proof. unfold eqb. apply bool_decide_eq_true. Qed.

Lemma eqb_neq (a b : str) : eqb a b = false <-> a <> b.
Proof. unfold eqb. apply bool_decide_eq_false. Qed.

Lemma startswith_app (p s : str) : startswith p (p ++ s) = true.
Proof.
  induction p as [|a p IH]; simpl; [done|].
  by rewrite N.eqb_refl, IH.
Qed.

Lemma startswith_true (p s : str) :
  startswith p s = true <-> exists s', s = p ++ s'.
Proof.
  split.
  - revert s. induction p as [|a p IH]; intros s H.
    + by exists s.
    + destruct s as [|b s]; simpl in H; [done|].
      apply andb_true_iff in H as [Hab H].
      apply N.eqb_eq in Hab as ->.
      destruct (IH _ H) as [s' ->]. by exists s'.
  - intros [s' ->]. apply startswith_app.
Qed.

Lemma startswith_head (c a : N) (p s : str) :
  c <> a -> startswith (c :: p) (a :: s) = false.
Proof. intros H. simpl. by apply N.eqb_neq in H as ->. Qed.

Lemma occurs_cons (d v : str) (c : N) : occurs d v -> occurs d (c :: v).
Proof. intros (a & b & ->). by exists (c :: a), b. Qed.

Lemma startswith_occurs (d v : str) : startswith d v = true -> occurs d v.
Proof.
  intros H. apply startswith_true in H as [s' ->]. by exists [], s'.
Qed.

(** *** split *)

Lemma split_scan_skip (sep p s : str) :
  split_scan sep (length p) (p ++ s) = split_scan sep 0 s.
Proof. induction p as [|a p IH]; simpl; [by destruct s|done]. Qed.

Lemma split_scan_sep (c : N) (sep s : str) :
  split_scan (c :: sep) 0 ((c :: sep) ++ s)
  = [] :: split_scan (c :: sep) 0 s.
Proof.
  change (split_scan (c :: sep) 0 ((c :: sep) ++ s))
    with (if startswith (c :: sep) ((c :: sep) ++ s)
          then [] :: split_scan (c :: sep) (length (c :: sep) - 1)
                       (sep ++ s)
          else cons_head c (split_scan (c :: sep) 0 (sep ++ s))).
  rewrite startswith_app.
  replace (length (c :: sep) - 1) with (length sep) by (simpl; lia).
  by rewrite split_scan_skip.
Qed.

Lemma split_scan_char (sep s : str) (c : N) :
  startswith sep (c :: s) = false ->
  split_scan sep 0 (c :: s) = cons_head c (split_scan sep 0 s).
Proof. intros H. simpl split_scan. by rewrite H. Qed.

Lemma split_scan_not_nil (sep s : str) (k : nat) : split_scan sep k s <> [].
Proof.
  revert k. induction s as [|c s IH]; intros k; simpl; [done|].
  destruct k; [|apply IH].
  destruct (startswith sep (c :: s)); [done|].
  specialize (IH 0). by destruct (split_scan sep 0 s).
Qed.

Lemma join_cons_head (sep : str) (c : N) (l : list str) :
  join sep (cons_head c l) = c :: join sep l.
Proof. destruct l as [|t [|t' ts]]; done. Qed.

Lemma join_cons (sep t : str) (l : list str) :
  l <> [] -> join sep (t :: l) = t ++ sep ++ join sep l.
Proof. by destruct l. Qed.

(** Joining the tokens of a split gives the string back. *)
Lemma join_split_scan (sep s : str) :
  sep <> [] -> join sep (split_scan sep 0 s) = s.
Proof.
  intros Hsep. destruct sep as [|c sep]; [done|clear Hsep].
  remember (length s) as n eqn:Hn.
  revert s Hn. induction n as [n IH] using lt_wf_ind. intros s Hn.
  destruct s as [|a s]; [done|].
  destruct (startswith (c :: sep) (a :: s)) eqn:Hst.
  - apply startswith_true in Hst as [s' Hs']. rewrite Hs'.
    rewrite split_scan_sep.
    rewrite join_cons by apply split_scan_not_nil.
    rewrite (IH (length s')); [done| |done].
    subst n. rewrite Hs', length_app. simpl. lia.
  - rewrite split_scan_char by done. rewrite join_cons_head.
    f_equal. apply (IH (length s)); [subst n; simpl; lia|done].
Qed.

(** A string without the separator is one token. *)
Lemma split_scan_no_occurrence (sep s : str) :
  ~ occurs sep s -> split_scan sep 0 s = [s].
Proof.
  induction s as [|c s IH]; intros H; [done|].
  rewrite split_scan_char.
  - rewrite IH; [done|]. intros Ho. by apply H, occurs_cons.
  - destruct (startswith sep (c :: s)) eqn:Hst; [|done].
    by apply startswith_occurs in Hst.
Qed.

(** A token without the first character of the separator ends where the
    separator begins. *)
Lemma split_scan_token (c : N) (sep t s : str) :
  c ∉ t ->
  split_scan (c :: sep) 0 (t ++ (c :: sep) ++ s)
  = t :: split_scan (c :: sep) 0 s.
Proof.
  induction t as [|a t IH]; intros Hc.
  - apply split_scan_sep.
  - rewrite <- app_comm_cons.
    rewrite split_scan_char.
    + rewrite IH; [done|]. set_solver.
    + apply startswith_head. set_solver.
Qed.

Lemma split_scan_last (c : N) (sep t : str) :
  c ∉ t -> split_scan (c :: sep) 0 t = [t].
Proof.
  intros Hc. apply split_scan_no_occurrence.
  intros (a & b & ->). set_solver.
Qed.

(** Splitting a join of tokens that are free of the first character of
    the separator gives the tokens back (one token at least). *)
Lemma split_scan_join (c : N) (sep : str) (l : list str) :
  l <> [] -> Forall (fun t => c ∉ t) l ->
  split_scan (c :: sep) 0 (join (c :: sep) l) = l.
Proof.
  induction l as [|t l IH]; intros Hne Hall; [done|].
  apply Forall_cons in Hall as [Ht Hl].
  destruct l as [|t' l].
  - by apply split_scan_last.
  - rewrite join_cons by done.
    rewrite split_scan_token by done.
    by rewrite IH.
Qed.

End PyStrFacts.

(** ** The token codec *)

Section TokenCodec.
Import PyStr.

Example str2item_texts_menu :
  str2item_texts (py "menu::1::2::busy::hello world::leftover") (py "::")
  = Ok (mkItemTexts (py "<menu>") (py "1") (py "2") (py "busy")
          (py "hello world") [], py "leftover").
Proof. reflexivity. Qed.

Example str2item_texts_plain :
  str2item_texts (py "just a value") (py "::")
  = Ok (ItemTexts_default, py "just a value").
Proof. reflexivity. Qed.

Example str2item_texts_raw_keeps_spaces :
  str2item_texts (py "raw::a::b::c::  text  ::x::y") (py "::")
  = Ok (mkItemTexts [] (py "a") (py "b") (py "c") (py "  text  ") [],
        py "x::y").
Proof. reflexivity. Qed.

Example str2item_texts_empty_separator :
  str2item_texts (py "menu::1") [] = Raise ValueError.
Proof. reflexivity. Qed.

(** The text of a decoded item: trimmed unless the type is [raw]. *)
Definition decoded_text (ty : ItemTextType) (t : str) : str :=
  match ty with
  | raw => t
  | _ => strip t
  end.

Lemma join_five_inv (d a b c e f : str) (l l' : list str) :
  d <> [] ->
  join d (a :: b :: c :: e :: f :: l) = join d (a :: b :: c :: e :: f :: l')
  -> join d l = join d l'.
Proof.
  intros Hd H.
  rewrite !(join_cons d a), !(join_cons d b), !(join_cons d c),
    !(join_cons d e) in H by done.
  do 8 apply app_inv_head in H.
  destruct l as [|t l], l' as [|t' l']; [done| | |].
  - rewrite (join_cons d f (t' :: l')) in H by done. simpl in H.
    apply (f_equal length) in H. rewrite !length_app in H.
    destruct d; [done|simpl in H; lia].
  - rewrite (join_cons d f (t :: l)) in H by done. simpl in H.
    apply (f_equal length) in H. rewrite !length_app in H.
    destruct d; [done|simpl in H; lia].
  - rewrite !(join_cons d f) in H by done.
    by do 2 apply app_inv_head in H.
Qed.

(** C1, as the code has it.  Let [d] be a separator and [T], [C], [S],
    [St], [Text], [Rest...] fields such that splitting their join on [d]
    gives the first five back as its first five tokens, and let [T],
    trimmed, name a text type.  Then [str2item_texts] returns that type,
    the category, subcategory and status trimmed, the text trimmed unless
    the type is [raw], and the join of [Rest] as the remaining value. *)
Theorem str2item_texts_fields (d T C S St Text : str)
    (Rest tokens : list str) (ty : ItemTextType) :
  split (join d (T :: C :: S :: St :: Text :: Rest)) d
  = Ok (T :: C :: S :: St :: Text :: tokens) ->
  ItemTextType_by_name (strip T) = Some ty ->
  str2item_texts (join d (T :: C :: S :: St :: Text :: Rest)) d
  = Ok (mkItemTexts (ItemTextType_value ty) (strip C) (strip S) (strip St)
          (decoded_text ty Text) [],
        join d Rest).
Proof.
  intros Hsplit Hty. unfold str2item_texts. rewrite Hsplit. simpl bind.
  rewrite Hty.
  assert (Hd : d <> []) by (intros ->; discriminate Hsplit).
  assert (Hjoin : join d tokens = join d Rest).
  { destruct d as [|c d]; [done|].
    injection Hsplit as Hs.
    apply (join_five_inv (c :: d) T C S St Text); [done|].
    rewrite <- Hs at 1. by apply join_split_scan. }
  rewrite Hjoin. by destruct ty.
Qed.

Lemma str2item_texts_fields_witness :
  str2item_texts (py "menu::1::2::busy::hello world::leftover") (py "::")
  = Ok (mkItemTexts (py "<menu>") (py "1") (py "2") (py "busy")
          (py "hello world") [], py "leftover").
Proof.
  exact (str2item_texts_fields (py "::") (py "menu") (py "1") (py "2")
           (py "busy") (py "hello world") [py "leftover"] [py "leftover"]
           menu eq_refl eq_refl).
Defined.

(** The hypothesis of [str2item_texts_fields] holds whenever the first
    five fields are free of the first character of the separator, whatever
    the other fields are. *)
Lemma split_five_fields (c : N) (d T C S St Text : str) (Rest : list str) :
  Forall (fun t => c ∉ t) [T; C; S; St; Text] ->
  exists tokens,
    split (join (c :: d) (T :: C :: S :: St :: Text :: Rest)) (c :: d)
    = Ok (T :: C :: S :: St :: Text :: tokens).
Proof.
  intros H.
  apply Forall_cons in H as [HT H]. apply Forall_cons in H as [HC H].
  apply Forall_cons in H as [HS H]. apply Forall_cons in H as [HSt H].
  apply Forall_cons in H as [HText _].
  unfold split.
  rewrite !(join_cons _ T), !(join_cons _ C), !(join_cons _ S),
    !(join_cons _ St) by done.
  rewrite !split_scan_token by done.
  destruct Rest as [|r Rest].
  - exists []. simpl join. by rewrite split_scan_last.
  - rewrite join_cons by done. rewrite split_scan_token by done. eauto.
Qed.

(** The claim C1 as it is worded fails: the category is trimmed too. *)
Lemma str2item_texts_category_not_verbatim :
  str2item_texts
    (join (py "::") [py "menu"; py " 1"; py "2"; py "busy"; py "hello";
                     py "rest"])
    (py "::")
  <> Ok (mkItemTexts (ItemTextType_value menu) (py " 1") (py "2")
           (py "busy") (py "hello") [], py "rest").
Proof. vm_compute. discriminate. Qed.

(** A field that holds the separator is not recovered either. *)
Example str2item_texts_separator_in_field :
  str2item_texts
    (join (py "::") [py "menu"; py "a::b"; py "2"; py "busy"; py "hello"])
    (py "::")
  = Ok (mkItemTexts (ItemTextType_value menu) (py "a") (py "b") (py "2")
          (py "busy") [], py "hello").
Proof. reflexivity. Qed.

(** C2.  When the separator does not occur in [v], and more generally
    when splitting [v] gives at most four tokens or a first token that,
    trimmed, names no text type, [str2item_texts] returns the default
    [ItemTexts] and [v] itself. *)
Theorem str2item_texts_default (v d : str) :
  (~ occurs d v \/
   exists tokens, split v d = Ok tokens /\
     (length tokens <= 4 \/
      exists t0 ts, tokens = t0 :: ts /\
                    ItemTextType_by_name (strip t0) = None)) ->
  str2item_texts v d = Ok (ItemTexts_default, v).
Proof.
  intros [Hno | (tokens & Hsplit & Hcase)]; unfold str2item_texts.
  - destruct d as [|c d].
    + exfalso. apply Hno. by exists [], v.
    + unfold split. by rewrite split_scan_no_occurrence.
  - rewrite Hsplit. simpl bind.
    destruct Hcase as [Hlen | (t0 & ts & -> & Hname)].
    + do 5 (destruct tokens as [|? tokens]; [done|]). simpl in Hlen. lia.
    + rewrite Hname. by destruct ts as [|? [|? [|? [|? ?]]]].
Qed.

Lemma str2item_texts_default_witness :
  str2item_texts (py "just a value") (py "::")
  = Ok (ItemTexts_default, py "just a value").
Proof.
  apply (str2item_texts_default (py "just a value") (py "::")).
  right. exists [py "just a value"]. split; [reflexivity|].
  left. simpl. lia.
Defined.

Example str2item_texts_unknown_type :
  str2item_texts (py "title::1::2::3::4::5") (py "::")
  = Ok (ItemTexts_default, py "title::1::2::3::4::5").
Proof. reflexivity. Qed.

End TokenCodec.

(** ** The picker adapters *)

Section Adapters.
Import PyStr.

Definition newline : str := [10%N].

(** A raw item whose rendered line is [line]. *)
Definition raw_item (line : str) : BaseItem :=
  mkBaseItem (py "ItemExternal") (mkItemTexts [] [] [] [] line line)
    (py "x") (py "x") [].

Example splitlines_two :
  splitlines (py "enter" ++ newline ++ py "alpha" ++ newline)
  = [py "enter"; py "alpha"].
Proof. reflexivity. Qed.

Example splitlines_crlf :
  splitlines (py "a" ++ [13%N; 10%N] ++ [10%N] ++ py "b")
  = [py "a"; []; py "b"].
Proof. reflexivity. Qed.

Example Rofi_run_menu_picks :
  Rofi_run_menu [raw_item (py "alpha"); raw_item (py "beta")] 0
    (mkPickerRun (py "beta" ++ newline) 0 3)
  = Ok (selected, Some (raw_item (py "beta"))).
Proof. reflexivity. Qed.

Example Fzf_run_menu_picks :
  Fzf_run_menu [raw_item (py "alpha"); raw_item (py "beta")] 0
    (mkPickerRun (py "enter" ++ newline ++ py "beta" ++ newline) 0 3)
  = Ok (selected, Some (raw_item (py "beta"))).
Proof. reflexivity. Qed.

Example Rofi_run_menu_timeout :
  Rofi_run_menu [raw_item (py "alpha")] 2 (mkPickerRun [] 0 5)
  = Ok (restart, None).
Proof. reflexivity. Qed.

(** X5, the half of C3 that holds: with rofi, a line that matches no
    item gives [restart] and no item, whatever the exit status is (the
    quit key apart). *)
Lemma Rofi_run_menu_no_match (items : list BaseItem) (timeout : Q)
    (p : picker_run) (line : str) :
  timeout_raised timeout p = false ->
  nonempty (rstrip (stdout p)) = Some line ->
  get_selected_item items line = None ->
  returncode p <> 11%Z ->
  Rofi_run_menu items timeout p = Ok (restart, None).
Proof.
  intros Ht Hline Hnone Hrc. unfold Rofi_run_menu.
  rewrite Ht, Hline, Hnone.
  destruct (Z.eqb_spec (returncode p) 10); [done|].
  destruct (Z.eqb_spec (returncode p) 11); [done|].
  by destruct (Z.eqb_spec (returncode p) 1).
Qed.

Lemma get_selected_item_Some (items : list BaseItem) (line : str)
    (item : BaseItem) :
  get_selected_item items line = Some item ->
  item ∈ items /\ menu_text (texts item) = line.
Proof.
  unfold get_selected_item. intros H. apply find_some in H as [Hin Heq].
  split; [by apply list_elem_of_In|by apply eqb_eq].
Qed.

(** With rofi, [selected] always comes with an item. *)
Lemma Rofi_run_menu_selected (items : list BaseItem) (timeout : Q)
    (p : picker_run) (o : option BaseItem) :
  Rofi_run_menu items timeout p = Ok (selected, o) ->
  exists item, o = Some item /\ item ∈ items.
Proof.
  unfold Rofi_run_menu. destruct (timeout_raised timeout p); [done|].
  destruct (nonempty (rstrip (stdout p))) as [line|] eqn:Hline.
  - destruct (get_selected_item items line) as [item|] eqn:Hitem.
    + intros H. exists item. split.
      * destruct (returncode p =? 10)%Z, (returncode p =? 11)%Z,
          (returncode p =? 1)%Z; simpl in H; congruence.
      * by apply get_selected_item_Some in Hitem as [? _].
    + destruct (returncode p =? 10)%Z, (returncode p =? 11)%Z,
        (returncode p =? 1)%Z; simpl; congruence.
  - destruct (returncode p =? 10)%Z, (returncode p =? 11)%Z,
      (returncode p =? 1)%Z; simpl; congruence.
Qed.

(** C10.  [RofiInterface.run_menu] ends with [next_action] unbound
    exactly when there is no timeout, the exit status is none of 10, 11
    and 1, and the output, trimmed, is empty; exit status 0 with an empty
    output is such an outcome. *)
Theorem Rofi_run_menu_unbound :
  (forall (items : list BaseItem) (timeout : Q) (p : picker_run),
      Rofi_run_menu items timeout p = Raise UnboundLocalError <->
      timeout_raised timeout p = false /\
      returncode p <> 10%Z /\ returncode p <> 11%Z /\
      returncode p <> 1%Z /\ rstrip (stdout p) = [])
  /\ Rofi_run_menu [raw_item (py "alpha")] 0 (mkPickerRun [] 0 3)
     = Raise UnboundLocalError.
Proof.
  split; [|reflexivity].
  intros items timeout p. unfold Rofi_run_menu.
  destruct (timeout_raised timeout p).
  { split; [done|]. by intros [? _]. }
  destruct (rstrip (stdout p)) as [|c r] eqn:Hr; simpl nonempty; cbv iota.
  - destruct (Z.eqb_spec (returncode p) 10), (Z.eqb_spec (returncode p) 11),
      (Z.eqb_spec (returncode p) 1); simpl;
      (split; [try done|intros (_ & ? & ? & ? & _); congruence]).
  - destruct (get_selected_item items (c :: r));
      destruct (Z.eqb_spec (returncode p) 10),
        (Z.eqb_spec (returncode p) 11), (Z.eqb_spec (returncode p) 1);
      simpl; (split; [done|intros (_ & ? & ? & ? & ?); congruence]).
Qed.

End Adapters.

(** ** Menu.show *)

Section MenuShow.
Import PyStr.

(** Membership of an event in a trace given by its elements. *)
Local Ltac in_trace :=
  repeat match goal with
    | H : _ ∈ _ ++ _ |- _ => apply elem_of_app in H as [H|H]
    | H : _ ∈ _ :: _ |- _ => apply elem_of_cons in H as [H|H]
    | H : _ ∈ [] |- _ => by apply elem_of_nil in H
    | H : Executed _ = Executed _ |- _ => injection H as H
    end;
  try done.

Lemma truthy_positive (timeout : Q) : (0 < timeout)%Q -> truthy timeout = true.
Proof.
  intros H. unfold truthy. apply negb_true_iff.
  destruct (Qeq_bool timeout 0) eqn:E; [|done].
  apply Qeq_bool_eq in E. rewrite E in H. by apply Qlt_irrefl in H.
Qed.

(** The events of [show_resolve]: the cache is cleared, and the handler
    may log; no item is executed. *)
Lemma show_resolve_events (w : World) (self : Menu) (tr0 tr : list event)
    (r : result (option (str * list BaseItem))) :
  show_resolve w self tr0 = (r, tr) ->
  (tr = tr0 ++ [SharedCleared] /\ r <> Ok None) \/
  (tr = tr0 ++ [SharedCleared; ErrorLogged] /\ r = Ok None).
Proof.
  unfold show_resolve, bindM, emit, liftM, retM.
  destruct (after_set_items self) as [items|e]; [|left; by simplify_eq].
  destruct (after_set_title self) as [title|e]; [|left; by simplify_eq].
  destruct (map_result _ items) as [instances|e]; [|left; by simplify_eq].
  destruct (gather_set_text w instances) as [l|e]; [left; by simplify_eq|].
  destruct e; intros; simplify_eq; try (by left).
  right. by rewrite <- app_assoc.
Qed.

(** The events of [show_act]: at most the execution of the selected
    item, which takes the action [selected], no loop timeout and a type
    other than [notification]. *)
Lemma show_act_events (w : World) (timeout : Q) (a : next_action_t)
    (o : option BaseItem) (tr0 tr : list event) (r : result (str * str)) :
  show_act w timeout a o tr0 = (r, tr) ->
  tr = tr0 \/
  exists item, tr = tr0 ++ [Executed item] /\ a = selected /\
               truthy timeout = false /\ o = Some item /\
               type_ (texts item) <> ItemTextType_value notification.
Proof.
  unfold show_act, bindM, emit, liftM, retM.
  destruct a; try (destruct o; intros; simplify_eq; by left).
  destruct (truthy timeout) eqn:Ht.
  { destruct o; intros; simplify_eq; by left. }
  destruct o as [item|]; [|intros; simplify_eq; by left].
  destruct (eqb (type_ (texts item)) _) eqn:Hty.
  { intros; simplify_eq; by left. }
  apply eqb_neq in Hty.
  destruct (w_execute w item); intros; simplify_eq; right; eauto 10.
Qed.

(** In loop mode the action [selected] becomes [back]. *)
Lemma show_act_loop (w : World) (timeout : Q) (o : option BaseItem)
    (tr0 : list event) :
  truthy timeout = true ->
  show_act w timeout selected o tr0
  = (Ok (py "back", match o with
                    | Some item => identifier item
                    | None => []
                    end), tr0).
Proof.
  intros Ht. unfold show_act, bindM, retM. rewrite Ht. by destruct o.
Qed.

(** The handler of [show]: a [DecodeStringError] of [set_text] is logged
    and [show] returns two empty strings. *)
Lemma show_DecodeStringError (w : World) (self : Menu) (last : str)
    (timeout : Q) (items : list (ItemClass * str)) (title : str)
    (instances : list BaseItem) :
  after_set_items self = Ok items ->
  after_set_title self = Ok title ->
  map_result (fun kv => cls_init (fst kv) (configuration self) (snd kv))
    items = Ok instances ->
  gather_set_text w instances = Raise DecodeStringError ->
  show w self last timeout []
  = (Ok ([], []), [SharedCleared; ErrorLogged]).
Proof.
  intros Hi Ht Hm Hg.
  unfold show, show_resolve, bindM, emit, liftM, retM.
  by rewrite Hi, Ht, Hm, Hg.
Qed.

(** Any other exception of [set_text] leaves [show]. *)
Lemma show_other_error (w : World) (self : Menu) (last : str)
    (timeout : Q) (items : list (ItemClass * str)) (title : str)
    (instances : list BaseItem) (e : exn) :
  after_set_items self = Ok items ->
  after_set_title self = Ok title ->
  map_result (fun kv => cls_init (fst kv) (configuration self) (snd kv))
    items = Ok instances ->
  gather_set_text w instances = Raise e ->
  e <> DecodeStringError ->
  show w self last timeout [] = (Raise e, [SharedCleared]).
Proof.
  intros Hi Ht Hm Hg He.
  unfold show, show_resolve, bindM, emit, liftM, retM.
  rewrite Hi, Ht, Hm, Hg. by destruct e.
Qed.

(** [ItemZerotierNetwork] wants exactly two fields, and raises
    [ValueError] otherwise. *)
Lemma ItemZerotierNetwork_init_ValueError (cfg : Configuration)
    (d value0 : str) (tokens : list str) :
  delimiter cfg = Ok d ->
  split value0 d = Ok tokens ->
  length tokens <> 2 ->
  ItemZerotierNetwork_init cfg value0 = Raise ValueError.
Proof.
  intros Hd Hs Hlen. unfold ItemZerotierNetwork_init, BaseItem_init.
  rewrite Hd. simpl bind.
  unfold str2item_texts. rewrite Hs. simpl bind.
  assert (Hend : match tokens with
                 | [a; b] => Ok (a, b)
                 | _ => Raise ValueError
                 end = (Raise ValueError : result (str * str))).
  { by destruct tokens as [|? [|? [|? ?]]]. }
  destruct tokens as [|t0 [|t1 [|t2 [|t3 [|t4 rest]]]]]; try done.
  all: destruct (ItemTextType_by_name (strip t0)); done.
Qed.

Definition default_configuration (k : interface_t) : Configuration :=
  mkConfiguration k TOKEN_SEPARATORS.

(** C5 fails on the code.  The value [abc] of an [ItemZerotierNetwork]
    has one field where two are wanted: the constructor raises
    [ValueError], outside the [try] statement of [show], and [show] ends
    with that exception instead of returning two empty strings. *)
Theorem show_malformed_zerotier (w : World) (k : interface_t)
    (last : str) (timeout : Q) :
  ItemZerotierNetwork_init (default_configuration k) (py "abc")
  = Raise ValueError
  /\ show w (plain_Menu (default_configuration k) (py "Menu")
               [(ItemZerotierNetwork, py "abc")]) last timeout []
     = (Raise ValueError, [SharedCleared]).
Proof. split; reflexivity. Qed.

(** C6.  When [show] runs with a positive loop timeout and the interface
    answers [selected], [show] returns the action [back], and no item is
    executed. *)
Theorem show_loop_timeout (w : World) (self : Menu) (last title : str)
    (timeout : Q) (instances : list BaseItem) (o : option BaseItem)
    (tr : list event) :
  (0 < timeout)%Q ->
  show_resolve w self [] = (Ok (Some (title, instances)), tr) ->
  Interface_run w (interface (configuration self)) title last
    (visible_items instances) timeout = Ok (selected, o) ->
  show w self last timeout []
  = (Ok (py "back", match o with
                    | Some item => identifier item
                    | None => []
                    end), tr)
  /\ forall item, Executed item ∉ tr.
Proof.
  intros Hpos Hres Hrun. split.
  - unfold show, bindM at 1. rewrite Hres.
    unfold bindM, liftM. rewrite Hrun. simpl fst. simpl snd.
    apply show_act_loop. by apply truthy_positive.
  - intros item Hin.
    apply show_resolve_events in Hres as [[-> _]|[-> _]]; in_trace.
Qed.

(** C7.  An item is executed by [show] only if the interface answered
    [selected] with that item, the loop timeout is zero and the type of
    the item is not [notification]. *)
Theorem show_executes_selected (w : World) (self : Menu) (last : str)
    (timeout : Q) (item : BaseItem) :
  Executed item ∈ snd (show w self last timeout []) ->
  exists title instances tr,
    show_resolve w self [] = (Ok (Some (title, instances)), tr) /\
    Interface_run w (interface (configuration self)) title last
      (visible_items instances) timeout = Ok (selected, Some item) /\
    truthy timeout = false /\
    type_ (texts item) <> ItemTextType_value notification.
Proof.
  unfold show, bindM at 1.
  destruct (show_resolve w self []) as [r tr] eqn:Hres.
  pose proof (show_resolve_events _ _ _ _ _ Hres) as Hev.
  destruct r as [[[title instances]|]|e]; simpl.
  - unfold bindM, liftM.
    destruct (Interface_run _ _ _ _ _ _) as [[a o]|e] eqn:Hrun; simpl.
    + destruct (show_act w timeout a o tr) as [r' tr'] eqn:Hact.
      simpl. intros Hin.
      apply show_act_events in Hact
        as [->|(item' & -> & -> & Ht & -> & Hty)].
      * destruct Hev as [[-> _]|[-> _]]; in_trace.
      * assert (item = item') as <-.
        { destruct Hev as [[-> _]|[-> _]]; in_trace. }
        eauto 10.
    + intros Hin. destruct Hev as [[-> _]|[-> _]]; in_trace.
  - intros Hin. destruct Hev as [[-> _]|[-> _]]; in_trace.
  - intros Hin. destruct Hev as [[-> _]|[-> _]]; in_trace.
Qed.

End MenuShow.

(** ** A run of [show] on one item *)

Section ShowExample.

(** The default [set_text], a picker whose user takes the row offered and
    presses enter after one second, and an [execute] that returns. *)
Definition echo_world : World :=
  mkWorld true false (fun i => Ok (texts i))
    (fun _ row lines => mkPickerRun (nth row lines [] ++ newline) 0 1)
    (fun _ => Ok tt).

Definition hello_value : str := py "action::Net::::up::hello".

Definition hello_menu : Menu :=
  plain_Menu (default_configuration rofi) (py "Menu")
    [(ItemExternal, hello_value)].

Definition hello_instance : BaseItem :=
  mkBaseItem (py "ItemExternal")
    (mkItemTexts (py "<action>") (py "Net") [] (py "up") (py "hello") [])
    [] hello_value [].

Definition hello_rendered : BaseItem :=
  set_menu_text (py " <action> Net  up  hello") hello_instance.

Example show_hello :
  show echo_world hello_menu [] 0 []
  = (Ok (py "selected", py "ItemExternal:action::Net::::up::hello"),
     [SharedCleared; Executed hello_rendered]).
Proof. reflexivity. Qed.

Lemma show_loop_timeout_witness :
  show echo_world hello_menu [] 5 []
  = (Ok (py "back", identifier hello_rendered), [SharedCleared])
  /\ forall item, Executed item ∉ [SharedCleared].
Proof.
  apply (show_loop_timeout echo_world hello_menu [] (py "Menu") 5
           [hello_instance] (Some hello_rendered) [SharedCleared]);
    reflexivity.
Defined.

Lemma show_executes_selected_witness :
  exists title instances tr,
    show_resolve echo_world hello_menu [] = (Ok (Some (title, instances)), tr)
    /\ Interface_run echo_world rofi title [] (visible_items instances) 0
       = Ok (selected, Some hello_rendered)
    /\ truthy 0 = false
    /\ type_ (texts hello_rendered) <> ItemTextType_value notification.
Proof.
  apply (show_executes_selected echo_world hello_menu [] 0 hello_rendered).
  apply list_elem_of_In. vm_compute. right. left. reflexivity.
Defined.

End ShowExample.

(** ** A line read back from fzf *)

Section FzfSelection.
Import PyStr.

(** An item of a program that prints a raw text with a space at its end. *)
Definition spaced_value : str := py "raw::::::::foo ::x".

Definition spaced_menu (k : interface_t) : Menu :=
  plain_Menu (default_configuration k) (py "Menu")
    [(ItemExternal, spaced_value)].

Definition spaced_instance : BaseItem :=
  mkBaseItem (py "ItemExternal") (mkItemTexts [] [] [] [] (py "foo ") [])
    (py "x") spaced_value [].

(** fzf whose user presses enter on the row offered: fzf writes the key,
    then the line of that row as it was given. *)
Definition enter_world : World :=
  mkWorld true false (fun i => Ok (texts i))
    (fun _ row lines =>
       mkPickerRun (py "enter" ++ newline ++ nth row lines [] ++ newline) 0 1)
    (fun _ => Ok tt).

(** C3 fails for fzf, on a line of the menu that ends with white space.
    Text typed that matches no line makes fzf write the key alone, and
    [FzfInterface.run_menu] answers [restart] with no item, as the claim
    says.  But the line of the row taken is trimmed when it is read back:
    when the line of an item ends with white space and its trimmed form
    is no line of the menu, [run_menu] answers [selected] with no item.
    So does [Interface.run] on an item whose text is [foo ] when the user
    presses enter on it, and [show] ends with the [AttributeError] of
    [None.identifier]; rofi answers [restart] there. *)
Theorem Fzf_run_menu_selected_trimmed_line :
  (forall (items : list BaseItem) (timeout : Q) (p : picker_run) (key : str),
      timeout_raised timeout p = false ->
      splitlines (stdout p) = [key] ->
      rstrip key = py "enter" ->
      Fzf_run_menu items timeout p = Ok (restart, None))
  /\ (forall (items : list BaseItem) (timeout : Q) (p : picker_run)
         (key : str) (item : BaseItem),
        timeout_raised timeout p = false ->
        item ∈ items ->
        splitlines (stdout p) = [key; menu_text (texts item)] ->
        rstrip key = py "enter" ->
        rstrip (menu_text (texts item)) <> [] ->
        (forall other, other ∈ items ->
           menu_text (texts other) <> rstrip (menu_text (texts item))) ->
        Fzf_run_menu items timeout p = Ok (selected, None))
  /\ Interface_run enter_world fzf (py "Menu") [] [spaced_instance] 0
     = Ok (selected, None)
  /\ show enter_world (spaced_menu fzf) [] 0 []
     = (Raise AttributeError, [SharedCleared])
  /\ show echo_world (spaced_menu rofi) [] 0 []
     = (Ok (py "restart", []), [SharedCleared]).
Proof.
  split; [|split; [|repeat split; reflexivity]].
  - intros items timeout p key Ht Hlines Hkey. unfold Fzf_run_menu.
    rewrite Ht, Hlines, Hkey. reflexivity.
  - intros items timeout p key item Ht Hin Hlines Hkey Hne Hno.
    unfold Fzf_run_menu. rewrite Ht, Hlines, Hkey.
    assert (get_selected_item items (rstrip (menu_text (texts item))) = None)
      as ->.
    { unfold get_selected_item.
      destruct (find _ items) as [other|] eqn:Hfind; [|done].
      apply find_some in Hfind as [Hother Heq].
      apply eqb_eq in Heq. apply list_elem_of_In in Hother.
      by destruct (Hno other Hother). }
    simpl. by destruct (rstrip (menu_text (texts item))).
Qed.

End FzfSelection.

(** ** Interface.format_items_text *)

Section Rendering.

Variable apply_tokens : str -> str.

Lemma length_ljust (s : str) (n : nat) :
  length s <= n -> length (ljust s n) = n.
Proof.
  intros H. unfold ljust. rewrite length_app, length_replicate. lia.
Qed.

Lemma length_rjust (s : str) (n : nat) :
  length s <= n -> length (rjust s n) = n.
Proof.
  intros H. unfold rjust. rewrite length_app, length_replicate. lia.
Qed.

(** [ljust] keeps the string in front, [rjust] at the end. *)
Lemma ljust_prefix (s : str) (n : nat) : exists pad, ljust s n = s ++ pad.
Proof. by eexists. Qed.

Lemma rjust_suffix (s : str) (n : nat) : exists pad, rjust s n = pad ++ s.
Proof. by eexists. Qed.

(** The maximum is an upper bound of the field of every item. *)
Lemma max_len_ge (f : ItemTexts -> str) (l : list BaseItem)
    (item : BaseItem) :
  item ∈ l ->
  length (f (formatted_texts apply_tokens (texts item)))
  <= max_len apply_tokens f l.
Proof.
  intros Hin. unfold max_len. apply max_list_elem_of_le.
  apply list_elem_of_In, in_map_iff. exists item.
  split; [done|by apply list_elem_of_In].
Qed.

(** The maximum is the field length of some item. *)
Lemma max_len_attained (f : ItemTexts -> str) (l : list BaseItem) :
  l <> [] ->
  exists item, item ∈ l /\
    max_len apply_tokens f l
    = length (f (formatted_texts apply_tokens (texts item))).
Proof.
  intros Hne. unfold max_len.
  pose proof (max_list_elem_of
    (map (fun i => length (f (formatted_texts apply_tokens (texts i)))) l))
    as H.
  destruct l as [|x l]; [done|].
  specialize (H ltac:(done)).
  apply list_elem_of_In, in_map_iff in H as (item & Heq & Hin).
  exists item. split; [by apply list_elem_of_In|done].
Qed.

Lemma is_raw_set_menu_text (m : str) (item : BaseItem) :
  is_raw (set_menu_text m item) = is_raw item.
Proof. done. Qed.

Definition non_raw (items : list BaseItem) : list BaseItem :=
  List.filter (fun i => negb (is_raw i)) items.

Lemma elem_of_non_raw (items : list BaseItem) (item : BaseItem) :
  item ∈ non_raw items <-> item ∈ items /\ is_raw item = false.
Proof.
  unfold non_raw. rewrite !list_elem_of_In, filter_In.
  by rewrite negb_true_iff.
Qed.

(** The line that [format_items_text] gives to [item] in the menu
    [items]. *)
Definition rendered_line (items : list BaseItem) (item : BaseItem) : str :=
  if is_raw item then text (texts item)
  else menu_line apply_tokens
         (max_len apply_tokens type_ (non_raw items))
         (max_len apply_tokens category (non_raw items))
         (max_len apply_tokens subcategory (non_raw items))
         (max_len apply_tokens status (non_raw items))
         (max_len apply_tokens text (non_raw items)) item.

Lemma format_items_text_map (items : list BaseItem) :
  format_items_text apply_tokens items
  = map (fun item => set_menu_text (rendered_line items item) item) items.
Proof.
  unfold format_items_text. fold (non_raw items).
  destruct (non_raw items) as [|x l] eqn:Hnr.
  - apply map_ext_in. intros item Hin. unfold rendered_line.
    destruct (is_raw item) eqn:Hraw; [done|].
    assert (item ∈ non_raw items) as Hin'.
    { apply elem_of_non_raw. split; [by apply list_elem_of_In|done]. }
    rewrite Hnr in Hin'. by apply elem_of_nil in Hin'.
  - rewrite map_map. apply map_ext. intros item. unfold rendered_line.
    rewrite Hnr.
    destruct (is_raw item) eqn:Hraw; [by rewrite Hraw|].
    by rewrite is_raw_set_menu_text, Hraw.
Qed.

(** The line of the code is the line of the specification without the
    padding that would follow the text. *)
Lemma menu_line_spec (tl cl sl stl xl : nat) (item : BaseItem) :
  spec_menu_line apply_tokens tl cl sl stl xl item
  = menu_line apply_tokens tl cl sl stl xl item
    ++ (if Nat.eqb xl 0 then []
        else replicate
               (xl - length (text (formatted_texts apply_tokens
                                     (texts item)))) space).
Proof.
  unfold spec_menu_line, menu_line, ljust at 3.
  destruct (Nat.eqb cl 0), (Nat.eqb sl 0), (Nat.eqb stl 0), (Nat.eqb xl 0);
    try destruct (subcategory _);
    by rewrite ?app_nil_r, <- ?app_assoc.
Qed.

(** C4, as the code has it.  [format_items_text] gives every item its
    line.  The line of an item whose type is not [raw] is a space, the type
    left-aligned, then the category right-aligned after a space, the
    subcategory left-aligned after a slash (or blank), the status
    right-aligned after two spaces, each of these at exactly the maximum
    width of its field over the items that are not raw and left out when
    that maximum is zero (the type column is always there); the text comes
    last after two spaces, as it is, without padding.  The line of a raw
    item is its text.  An item with an empty text is not visible. *)
Theorem format_items_text_layout (items : list BaseItem) :
  let W f := max_len apply_tokens f (non_raw items) in
  format_items_text apply_tokens items
  = map (fun item => set_menu_text (rendered_line items item) item) items
  /\ (forall item, item ∈ items -> is_raw item = true ->
        rendered_line items item = text (texts item))
  /\ (forall item, item ∈ items -> is_raw item = false ->
        let ft := formatted_texts apply_tokens (texts item) in
        rendered_line items item
        = [space] ++ ljust (type_ ft) (W type_)
          ++ (if Nat.eqb (W category) 0 then []
              else [space] ++ rjust (category ft) (W category))
          ++ (if Nat.eqb (W subcategory) 0 then []
              else match subcategory ft with
                   | _ :: _ => py "/" ++ ljust (subcategory ft) (W subcategory)
                   | [] => replicate (W subcategory + 1) space
                   end)
          ++ (if Nat.eqb (W status) 0 then []
              else [space; space] ++ rjust (status ft) (W status))
          ++ (if Nat.eqb (W text) 0 then []
              else [space; space] ++ text ft)
        /\ length (ljust (type_ ft) (W type_)) = W type_
        /\ length (rjust (category ft) (W category)) = W category
        /\ length (ljust (subcategory ft) (W subcategory)) = W subcategory
        /\ length (rjust (status ft) (W status)) = W status
        /\ length (text ft) <= W text)
  /\ (forall item, item ∈ visible_items items <->
                   item ∈ items /\ text (texts item) <> []).
Proof.
  intros W. split; [apply format_items_text_map|]. split; [|split].
  - intros item _ Hraw. unfold rendered_line. by rewrite Hraw.
  - intros item Hin Hraw ft.
    assert (item ∈ non_raw items) as Hnr by by apply elem_of_non_raw.
    split.
    + unfold rendered_line. rewrite Hraw. unfold menu_line.
      fold ft. fold (W type_) (W category) (W subcategory) (W status)
        (W text).
      destruct (Nat.eqb (W category) 0), (Nat.eqb (W subcategory) 0),
        (Nat.eqb (W status) 0), (Nat.eqb (W text) 0);
        try destruct (subcategory ft);
        by rewrite ?app_nil_r, <- ?app_assoc.
    + repeat split.
      * apply length_ljust, (max_len_ge type_), Hnr.
      * apply length_rjust, (max_len_ge category), Hnr.
      * apply length_ljust, (max_len_ge subcategory), Hnr.
      * apply length_rjust, (max_len_ge status), Hnr.
      * apply (max_len_ge text), Hnr.
  - intros item. unfold visible_items.
    rewrite !list_elem_of_In, filter_In. unfold visible.
    split; intros [Hin Hv]; (split; [done|]); by destruct (text (texts item)).
Qed.

End Rendering.

Section RenderingExamples.

(** Two actions whose texts have the lengths 1 and 3. *)
Definition short_action : BaseItem :=
  mkBaseItem (py "ItemExternal")
    (mkItemTexts (py "<action>") [] [] [] (py "a") []) [] (py "s") [].
Definition long_action : BaseItem :=
  mkBaseItem (py "ItemExternal")
    (mkItemTexts (py "<action>") [] [] [] (py "abc") []) [] (py "l") [].

Example format_items_text_two :
  map (fun i => menu_text (texts i))
    (format_items_text (fun t => t) [short_action; long_action])
  = [py " <action>  a"; py " <action>  abc"].
Proof. reflexivity. Qed.

Example format_items_text_columns :
  map (fun i => menu_text (texts i))
    (format_items_text (text_apply_tokens rofi echo_world)
       [hello_instance;
        mkBaseItem (py "ItemZerotierNetwork")
          (mkItemTexts (py "<action>") (py "Zerotier") (py "network")
             (py "<running>") (py "home (toggle)") []) [] (py "n") [];
        raw_item (py "plain text")])
  = [py " <action>      Net                 up  hello";
     py " <action> Zerotier/network  <running>  home (toggle)";
     py "plain text"].
Proof. reflexivity. Qed.

(** With the substitutions, a type is one glyph wide. *)
Example format_items_text_glyphs :
  map (fun i => length (menu_text (texts i)))
    (format_items_text
       (text_apply_tokens rofi (mkWorld false false (fun i => Ok (texts i))
          (fun _ _ _ => mkPickerRun [] 0 0) (fun _ => Ok tt)))
       [short_action; long_action])
  = [5; 7].
Proof. reflexivity. Qed.

(** The claim C4 as it is worded fails on the text column: the line of
    the first of the two actions is not the line in which the text takes
    the maximum width 3. *)
Lemma format_items_text_text_not_padded :
  let items := [short_action; long_action] in
  let W f := max_len (fun t => t) f (non_raw items) in
  W text = 3
  /\ map (fun i => menu_text (texts i)) (format_items_text (fun t => t) items)
     <> map (spec_menu_line (fun t => t) (W type_) (W category)
               (W subcategory) (W status) (W text)) items.
Proof. vm_compute. split; [reflexivity|discriminate]. Qed.

End RenderingExamples.

(** ** The shared cache *)

Section CacheFacts.
Import SharedCache.

Context {V : Type}.
Implicit Types (s : state V) (x y : str) (p : pc V) (t : str * pc V).

(** Counting the calls of the variant [x] whose position satisfies [P]. *)
Definition weight (x : str) (P : pc V -> bool) (t : str * pc V) : nat :=
  if bool_decide (fst t = x) && P (snd t) then 1 else 0.

Definition count (x : str) (P : pc V -> bool) (ts : list (str * pc V)) : nat :=
  sum_list_with (weight x P) ts.

Definition holds_lock (p : pc V) : bool :=
  match p with
  | InLock | Computing | Leaving => true
  | _ => false
  end.

Definition is_computing (p : pc V) : bool :=
  match p with
  | Computing => true
  | _ => false
  end.

Definition is_failed (p : pc V) : bool :=
  match p with
  | Failed => true
  | _ => false
  end.

Definition stored (x : str) (s : state V) : nat :=
  match shared s !! x with
  | Some _ => 1
  | None => 0
  end.

Definition held (x : str) (s : state V) : nat :=
  if decide (x ∈ locked s) then 1 else 0.

(** What every reachable state satisfies, for the variant [x]. *)
Record inv (variants : list str) (x : str) (s : state V) : Prop := mkInv {
  inv_variants : fst <$> tasks s = variants;
  (* the lock of [x] is held by exactly the call inside the block *)
  inv_lock : count x holds_lock (tasks s) = held x s;
  (* every call of [set_shared_data] failed, is pending, or has stored *)
  inv_calls :
    calls_of x s
    = count x is_failed (tasks s) + count x is_computing (tasks s)
      + stored x s;
  inv_computing : 0 < count x is_computing (tasks s) -> shared s !! x = None;
  inv_value :
    forall i p, tasks s !! i = Some (x, p) ->
      match p with
      | Leaving | Released => is_Some (shared s !! x)
      | Done v => shared s !! x = Some v
      | _ => True
      end
}.

Lemma count_insert (x : str) (P : pc V -> bool) (ts : list (str * pc V))
    (i : nat) (t t' : str * pc V) :
  ts !! i = Some t ->
  count x P (<[i := t']> ts) + weight x P t = count x P ts + weight x P t'.
Proof.
  unfold count. revert i. induction ts as [|t0 ts IH]; intros i Hi; [done|].
  destruct i as [|i]; simpl in *.
  - simplify_eq. lia.
  - specialize (IH i Hi). lia.
Qed.

Lemma count_le (x : str) (P Q : pc V -> bool) (ts : list (str * pc V)) :
  (forall p, P p = true -> Q p = true) -> count x P ts <= count x Q ts.
Proof.
  intros HPQ. unfold count. induction ts as [|t ts IH]; simpl; [done|].
  assert (weight x P t <= weight x Q t); [|lia].
  unfold weight. destruct (bool_decide (fst t = x)); simpl; [|done].
  destruct (P (snd t)) eqn:HP; [by rewrite (HPQ _ HP)|].
  destruct (Q (snd t)); lia.
Qed.

Lemma count_zero (x : str) (P : pc V -> bool) (ts : list (str * pc V)) :
  (forall i p, ts !! i = Some (x, p) -> P p = false) -> count x P ts = 0.
Proof.
  unfold count. induction ts as [|[y p] ts IH]; intros H; simpl; [done|].
  rewrite IH by (intros i q Hi; by apply (H (S i))).
  unfold weight. simpl. case_bool_decide as Hy; simpl; [|done].
  subst y. by rewrite (H 0 p).
Qed.

Lemma count_pos (x : str) (P : pc V -> bool) (ts : list (str * pc V))
    (i : nat) (p : pc V) :
  ts !! i = Some (x, p) -> P p = true -> 0 < count x P ts.
Proof.
  unfold count. revert i. induction ts as [|t ts IH]; intros i Hi HP; [done|].
  destruct i as [|i]; simpl in *.
  - simplify_eq. unfold weight. simpl. rewrite bool_decide_eq_true_2 by done.
    rewrite HP. simpl. lia.
  - specialize (IH i Hi HP). lia.
Qed.

Lemma weight_other (x y : str) (P : pc V -> bool) (p : pc V) :
  y <> x -> weight x P (y, p) = 0.
Proof. intros H. unfold weight. simpl. by rewrite bool_decide_eq_false_2. Qed.

Lemma weight_same (x : str) (P : pc V -> bool) (p : pc V) :
  weight x P (x, p) = if P p then 1 else 0.
Proof. unfold weight. simpl. by rewrite bool_decide_eq_true_2. Qed.

Lemma fst_insert_same (ts : list (str * pc V)) (i : nat) (y : str)
    (p p' : pc V) :
  ts !! i = Some (y, p) -> fst <$> <[i := (y, p')]> ts = fst <$> ts.
Proof.
  intros Hi. rewrite list_fmap_insert. apply list_insert_id.
  by rewrite list_lookup_fmap, Hi.
Qed.

Lemma inv_initial (variants : list str) (x : str) :
  inv variants x (initial (V := V) variants).
Proof.
  assert (Hz : forall P, P Start = false ->
                 count x P (tasks (initial (V := V) variants)) = 0).
  { intros P HP. unfold count, initial. simpl.
    induction variants as [|y l IH]; simpl; [done|].
    rewrite IH. unfold weight. simpl. by rewrite HP, andb_false_r. }
  assert (Hf : fst <$> (tasks (initial (V := V) variants)) = variants).
  { clear Hz. unfold initial. simpl.
    induction variants as [|y l IH]; [done|]. simpl. by f_equal. }
  split; [done|..].
  - by rewrite Hz.
  - by rewrite !Hz.
  - rewrite Hz by done. lia.
  - intros i p Hi. unfold initial in Hi. simpl in Hi.
    apply list_elem_of_lookup_2, list_elem_of_In, in_map_iff in Hi
      as (y & Hy & _).
    by simplify_eq.
Qed.

(** The facts about the counters of [x] when task [i] moves from [(y, p)]
    to [(y, p')]. *)
Local Ltac counters x Hi p' :=
  match type of Hi with
  | ?ts !! ?i = Some (?y, ?p) =>
      pose proof (count_insert x holds_lock ts i (y, p) (y, p') Hi);
      pose proof (count_insert x is_computing ts i (y, p) (y, p') Hi);
      pose proof (count_insert x is_failed ts i (y, p) (y, p') Hi);
      pose proof (count_le x is_computing holds_lock ts
                    ltac:(by intros []));
      pose proof (count_le x is_computing holds_lock
                    (<[i := (y, p')]> ts) ltac:(by intros []))
  end.

Lemma calls_of_cons (x y : str) (s : state V) (ts : list (str * pc V))
    (m : gmap str V) (l : gset str) :
  calls_of x (mkState ts m l (y :: calls s))
  = (if bool_decide (y = x) then 1 else 0) + calls_of x s.
Proof. unfold calls_of. simpl. by case_bool_decide. Qed.

Lemma calls_of_same (x : str) (s : state V) (ts : list (str * pc V))
    (m : gmap str V) (l : gset str) :
  calls_of x (mkState ts m l (calls s)) = calls_of x s.
Proof. done. Qed.

Lemma stored_lookup (x : str) (ts : list (str * pc V))
    (m : gmap str V) (l : gset str) (c : list str) :
  stored x (mkState ts m l c) = match m !! x with Some _ => 1 | None => 0 end.
Proof. done. Qed.

Lemma held_same (x : str) (s : state V) (ts : list (str * pc V))
    (m : gmap str V) (c : list str) :
  held x (mkState ts m (locked s) c) = held x s.
Proof. done. Qed.

Lemma held_union_eq (x : str) (ts : list (str * pc V)) (m : gmap str V)
    (l : gset str) (c : list str) :
  held x (mkState ts m ({[x]} ∪ l) c) = 1.
Proof.
  unfold held. simpl. case_decide as H; [done|].
  rewrite elem_of_union, elem_of_singleton in H. destruct H. by left.
Qed.

Lemma held_union_ne (x y : str) (s : state V) (ts : list (str * pc V))
    (m : gmap str V) (c : list str) :
  y <> x -> held x (mkState ts m ({[y]} ∪ locked s) c) = held x s.
Proof.
  intros H. unfold held. simpl.
  case_decide as H1; case_decide as H2; try done;
    rewrite elem_of_union, elem_of_singleton in H1.
  - by destruct H1 as [->|?].
  - destruct H1. by right.
Qed.

Lemma held_difference_eq (x : str) (ts : list (str * pc V))
    (m : gmap str V) (l : gset str) (c : list str) :
  held x (mkState ts m (l ∖ {[x]}) c) = 0.
Proof.
  unfold held. simpl. case_decide as H; [|done].
  rewrite elem_of_difference, elem_of_singleton in H. by destruct H.
Qed.

Lemma held_difference_ne (x y : str) (s : state V)
    (ts : list (str * pc V)) (m : gmap str V) (c : list str) :
  y <> x -> held x (mkState ts m (locked s ∖ {[y]}) c) = held x s.
Proof.
  intros H. unfold held. simpl.
  case_decide as H1; case_decide as H2; try done;
    rewrite elem_of_difference, elem_of_singleton in H1.
  - by destruct H1.
  - destruct H1. split; [done|]. by intros ->.
Qed.

Lemma held_le (x : str) (s : state V) : held x s <= 1.
Proof. unfold held. case_decide; lia. Qed.

Lemma held_free (x : str) (s : state V) : x ∉ locked s -> held x s = 0.
Proof. intros H. unfold held. by case_decide. Qed.

Lemma inv_step (variants : list str) (x : str) (s s' : state V) (i : nat)
    (a : answer V) :
  inv variants x s -> step_task i a s = Some s' -> inv variants x s'.
Proof.
  intros [Hv Hl Hc Hcomp Hval] Hstep. unfold step_task in Hstep.
  destruct (tasks s !! i) as [[y p]|] eqn:Hi; [|done].
  pose proof (Hval i p) as Hvali.
  pose proof (held_le x s) as Hle.
  rewrite (stored_lookup x (tasks s) (shared s) (locked s) (calls s)
           : stored x s = _) in Hc.
  destruct (decide (y = x)) as [->|Hne];
  (destruct p; try done;
  repeat match type of Hstep with
    | context [decide (?z ∈ locked s)] =>
        let E := fresh "Hfree" in
        destruct (decide (z ∈ locked s)) as [|E];
        [|try apply held_free in E]
    | context [shared s !! ?k] =>
        let E := fresh "Hsh" in destruct (shared s !! k) eqn:E
    | context [match a with _ => _ end] => destruct a
    end;
  try done; unfold set_task in Hstep; simplify_eq;
  match goal with
  | |- inv _ _ {| tasks := <[_ := (_, ?p')]> _ |} => counters x Hi p'
  end;
  rewrite ?weight_same, ?(weight_other x y) in * by done; simpl in *).
  all: try (assert (shared s !! x = None) as Hnone by (apply Hcomp; lia);
            rewrite Hnone in * ).
  all: split; simpl.
  all: try (by erewrite fst_insert_same).
  all: rewrite ?held_same, ?held_union_eq, ?held_difference_eq,
         ?(held_union_ne x y), ?(held_difference_ne x y),
         ?calls_of_cons, ?calls_of_same, ?stored_lookup,
         ?lookup_insert_eq, ?(lookup_insert_ne _ y x),
         ?bool_decide_eq_true_2, ?(bool_decide_eq_false_2 (y = x)) by done.
  all: repeat match goal with
         | H : shared ?s0 !! ?k = _ |- context [shared ?s0 !! ?k] => rewrite H
         end.
  all: try lia.
  all: try (intros Hpos; first [done | lia | apply Hcomp; lia]).
  all: try (by destruct (Hvali Hi)).
  all: try (intros j q Hj;
            apply list_lookup_insert_Some in Hj as [(-> & Heq & _)|[Hij Hj]];
            [ simplify_eq; try done; try (by apply (Hval _ _ Hi)); eauto
            | apply Hval in Hj; destruct q; try done; eauto ]).
Qed.

Lemma inv_reachable (variants : list str) (x : str) (s : state V) :
  reachable variants s -> inv variants x s.
Proof.
  intros H.
  refine (rtc_ind_r (inv variants x) (initial variants) _ _ s H).
  - apply inv_initial.
  - intros s1 s2 _ (i & a & Hstep) IH.
    by apply (inv_step variants x s1 s2 i a).
Qed.

Lemma run_reachable (schedule : list (nat * answer V)) (s s' : state V) :
  run schedule s = Some s' -> rtc step s s'.
Proof.
  revert s. induction schedule as [|[i a] l IH]; intros s H; simpl in H.
  - by simplify_eq.
  - destruct (step_task i a s) as [s1|] eqn:Hs; [|done].
    eapply rtc_l; [by exists i, a|by apply IH].
Qed.

Lemma count_pos_inv (x : str) (P : pc V -> bool) (ts : list (str * pc V)) :
  0 < count x P ts -> exists i p, ts !! i = Some (x, p) /\ P p = true.
Proof.
  unfold count. induction ts as [|[y p] ts IH]; simpl; [lia|].
  intros H. unfold weight in H. simpl in H.
  case_bool_decide as Hy; simpl in H.
  - destruct (P p) eqn:HP.
    + subst y. by exists 0, p.
    + destruct (IH H) as (i & q & Hi & Hq). by exists (S i), q.
  - destruct (IH H) as (i & q & Hi & Hq). by exists (S i), q.
Qed.

Lemma returned_replicate (x : str) (v : V) (ts : list (str * pc V)) :
  (forall i p, ts !! i = Some (x, p) -> p = Done v) ->
  flat_map (fun t => match t with
                     | (y, Done v') => if bool_decide (y = x) then [v'] else []
                     | _ => []
                     end) ts
  = replicate (length (List.filter (fun y => bool_decide (y = x))
                         (fst <$> ts))) v.
Proof.
  induction ts as [|[y p] ts IH]; intros H; [done|].
  simpl. rewrite IH by (intros i q Hi; by apply (H (S i))).
  case_bool_decide as Hy.
  - subst y. by rewrite (H 0 p eq_refl).
  - by destruct p.
Qed.

(** C9.  Start from the state that [self.shared.clear()] leaves, with any
    number of calls of [get_shared_data] about to run, and let them run in
    any interleaving.  Once every call of the variant [x] has returned
    (there is one at least), [set_shared_data] has been called exactly once
    for [x], and all these calls have returned the value stored for [x]. *)
Theorem get_shared_data_once (variants : list str) (s : state V) (x : str) :
  reachable variants s ->
  x ∈ variants ->
  all_returned x s ->
  calls_of x s = 1 /\
  exists v,
    shared s !! x = Some v /\
    returned x s
    = replicate
        (length (List.filter (fun y => bool_decide (y = x)) variants)) v.
Proof.
  intros Hreach Hx Hall.
  destruct (inv_reachable variants x s Hreach) as [Hv Hl Hc Hcomp Hval].
  rewrite <- Hv in Hx. apply list_elem_of_fmap in Hx as ([y p0] & -> & Hin).
  apply list_elem_of_lookup_1 in Hin as [i0 Hi0]. simpl in *.
  destruct (Hall i0 p0 Hi0) as [v ->].
  pose proof (Hval i0 _ Hi0) as Hv0. simpl in Hv0.
  split.
  - rewrite Hc. unfold stored. rewrite Hv0.
    rewrite !count_zero; [done| |];
      intros i p Hi; by destruct (Hall i p Hi) as [? ->].
  - exists v. split; [done|].
    unfold returned. rewrite <- Hv. apply returned_replicate.
    intros i p Hi. destruct (Hall i p Hi) as [v' ->].
    pose proof (Hval i _ Hi) as Hv'. simpl in Hv'. congruence.
Qed.

(** X25.  At any moment at most one call of the variant [x] is inside
    the [async with self.lock] block. *)
Lemma get_shared_data_exclusive (variants : list str) (s : state V)
    (x : str) (i j : nat) (p q : pc V) :
  reachable variants s ->
  tasks s !! i = Some (x, p) -> holds_lock p = true ->
  tasks s !! j = Some (x, q) -> holds_lock q = true ->
  i = j.
Proof.
  intros Hreach Hi Hp Hj Hq.
  destruct (inv_reachable variants x s Hreach) as [_ Hl _ _ _].
  pose proof (held_le x s) as Hle. rewrite <- Hl in Hle.
  destruct (decide (i = j)) as [|Hne]; [done|exfalso].
  pose proof (count_insert x holds_lock (tasks s) i (x, p) (x, Start) Hi)
    as H1.
  rewrite !weight_same, Hp in H1. simpl in H1.
  assert (0 < count x holds_lock (<[i := (x, Start)]> (tasks s))); [|lia].
  apply (count_pos x holds_lock _ j q); [|done].
  by rewrite list_lookup_insert_ne.
Qed.

(** X26.  As long as no call for [x] has failed, [set_shared_data] has
    been called at most once for [x]. *)
Lemma get_shared_data_at_most_once (variants : list str) (s : state V)
    (x : str) :
  reachable variants s ->
  (forall i, tasks s !! i <> Some (x, Failed)) ->
  calls_of x s <= 1.
Proof.
  intros Hreach Hnf.
  destruct (inv_reachable variants x s Hreach) as [_ Hl Hc Hcomp _].
  pose proof (held_le x s) as Hle.
  pose proof (count_le x is_computing holds_lock (tasks s)
                ltac:(by intros [])) as Hch.
  rewrite Hc, (count_zero x is_failed).
  - unfold stored. destruct (shared s !! x) eqn:Hs; [|lia].
    destruct (count x is_computing (tasks s)) as [|n] eqn:Hn; [lia|].
    specialize (Hcomp ltac:(lia)). congruence.
  - intros i p Hi. destruct p; try done. by destruct (Hnf i).
Qed.

(** X27.  No deadlock: while a call has neither returned nor failed,
    some call can move. *)
Lemma get_shared_data_progress (variants : list str) (s : state V)
    (i : nat) (x : str) (p : pc V) :
  reachable variants s ->
  tasks s !! i = Some (x, p) ->
  (forall v, p <> Done v) -> p <> Failed ->
  exists s', step s s'.
Proof.
  intros Hreach Hi Hnd Hnf.
  assert (Hmoves : forall j y q, tasks s !! j = Some (y, q) ->
            holds_lock q = true \/ q = Released ->
            exists s', step s s').
  { intros j y q Hj Hq. unfold step.
    destruct q; destruct Hq as [Hq|Hq]; try done.
    - destruct (shared s !! y) eqn:Hs;
        eexists; exists j, Raises; unfold step_task;
        by rewrite Hj, Hs.
    - eexists. exists j, Raises. unfold step_task. by rewrite Hj.
    - eexists. exists j, Raises. unfold step_task. by rewrite Hj.
    - destruct (shared s !! y) eqn:Hs;
        eexists; exists j, Raises; unfold step_task;
        by rewrite Hj, Hs. }
  destruct p; try done.
  - destruct (decide (x ∈ locked s)) as [Hlocked|Hfree].
    + destruct (inv_reachable variants x s Hreach) as [_ Hl _ _ _].
      assert (0 < count x holds_lock (tasks s)) as Hpos.
      { rewrite Hl. unfold held. case_decide; [lia|done]. }
      apply count_pos_inv in Hpos as (j & q & Hj & Hq).
      apply (Hmoves j x q Hj). by left.
    + eexists. exists i, Raises. unfold step_task.
      rewrite Hi. by case_decide.
  - apply (Hmoves i x InLock Hi). by left.
  - apply (Hmoves i x Computing Hi). by left.
  - apply (Hmoves i x Leaving Hi). by left.
  - apply (Hmoves i x Released Hi). by right.
  - by destruct (Hnd v).
Qed.

End CacheFacts.

Section CacheExample.
Import SharedCache.

(** Three calls, two of one variant, interleaved: the first call of
    [MenuAudioNode] computes 7 while the call of [ItemAudioNodeChange]
    computes 9, and the second call of [MenuAudioNode] finds 7 stored. *)
Definition node : str := py "MenuAudioNode".
Definition change : str := py "ItemAudioNodeChange".
Definition three_calls : list str := [node; change; node].

Definition interleaved : list (nat * answer nat) :=
  [(0, Raises); (1, Raises); (0, Raises); (1, Raises); (0, Returns 7);
   (0, Raises); (2, Raises); (2, Raises); (0, Raises); (1, Returns 9);
   (2, Raises); (1, Raises); (2, Raises); (1, Raises)].

Definition after_interleaved : state nat :=
  default (initial three_calls) (run interleaved (initial three_calls)).

Example run_interleaved :
  tasks after_interleaved = [(node, Done 7); (change, Done 9); (node, Done 7)]
  /\ calls after_interleaved = [change; node].
Proof. split; reflexivity. Qed.

Lemma get_shared_data_once_witness :
  calls_of node after_interleaved = 1 /\
  exists v,
    shared after_interleaved !! node = Some v /\
    returned node after_interleaved
    = replicate
        (length (List.filter (fun y => bool_decide (y = node)) three_calls))
        v.
Proof.
  apply (get_shared_data_once three_calls after_interleaved node).
  - apply (run_reachable interleaved). vm_compute. reflexivity.
  - apply elem_of_cons. by left.
  - intros [|[|[|i]]] p H; vm_compute in H; simplify_eq; eauto.
Defined.

(** C9 as it is worded fails when [set_shared_data] raises.  Of two
    calls of [MenuAudioNode], the first one computes and gets an
    exception: it leaves the block with nothing stored, and the second one
    computes again.  When no call can move any more, [set_shared_data] has
    been called twice for the variant, and one call has not returned. *)
Lemma get_shared_data_twice_after_failure :
  exists s : state nat,
    reachable [node; node] s
    /\ (forall s', ~ step s s')
    /\ tasks s = [(node, Failed); (node, Done 7)]
    /\ calls_of node s = 2
    /\ calls_of node s <> 1.
Proof.
  destruct (run [(0, Raises); (0, Raises); (0, Raises); (1, Raises);
                 (1, Raises); (1, Returns 7); (1, Raises); (1, Raises)]
              (initial [node; node])) as [s|] eqn:Hrun; [|discriminate Hrun].
  exists s. split; [by apply run_reachable in Hrun|].
  vm_compute in Hrun. injection Hrun as <-.
  split; [|by repeat split].
  intros s' (i & a & Hstep). by destruct i as [|[|i]].
Qed.

(** With a [set_shared_data] that raises, the next call computes again:
    two calls of [set_shared_data] for one variant. *)
Example run_after_failure :
  option_map (fun s => (tasks s, calls s))
    (run [(0, Raises); (0, Raises); (0, Raises); (1, Raises); (1, Raises);
          (1, Returns 7); (1, Raises); (1, Raises)]
       (initial [node; node]))
  = Some ([(node, Failed); (node, Done 7)], [node; node]).
Proof. reflexivity. Qed.

End CacheExample.

(** ** The level shift of [get_item_type_value] *)

Section LevelShift.
Import PyStr.

(** The loop of [get_item_type_value], by recursion on the separators. *)
Fixpoint lower_all (seps : list str) (v : str) : str :=
  match seps with
  | lo :: ((hi :: _) as rest) => lower_all rest (replace v hi lo)
  | _ => v
  end.

Lemma separator_app (pre seps : list str) (i : nat) :
  separator (pre ++ seps) (length pre + i) = separator seps i.
Proof.
  unfold separator. by rewrite lookup_app_r, Nat.add_comm, Nat.add_sub by lia.
Qed.

Lemma reduce_levels_Raise (seps : list str) (levels : list nat) (e : exn) :
  fold_left
    (fun acc level =>
       bind acc (fun inner =>
       bind (separator seps (level + 1)) (fun hi =>
       bind (separator seps level) (fun lo =>
       Ok (replace inner hi lo)))))
    levels (Raise e) = Raise e.
Proof. induction levels as [|l ls IH]; [done|apply IH]. Qed.

Lemma reduce_levels_lower_all (pre seps : list str) (v : str) :
  reduce_levels (pre ++ seps) (seq (length pre) (length seps - 1)) v
  = Ok (lower_all seps v).
Proof.
  revert pre v. induction seps as [|lo rest IH]; intros pre v; [done|].
  destruct rest as [|hi rest]; [done|].
  replace (length (lo :: hi :: rest) - 1) with (S (length (hi :: rest) - 1))
    by (simpl; lia).
  simpl seq. unfold reduce_levels. simpl fold_left.
  replace (length pre + 1) with (length pre + 1) by done.
  rewrite (separator_app pre (lo :: hi :: rest) 1).
  replace (separator (pre ++ lo :: hi :: rest) (length pre))
    with (separator (lo :: hi :: rest) 0)
    by (rewrite <- (separator_app pre _ 0); f_equal; lia).
  simpl bind.
  specialize (IH (pre ++ [lo]) (replace v hi lo)).
  rewrite <- app_assoc, length_app in IH. simpl in IH.
  replace (length pre + 1) with (S (length pre)) in IH by lia.
  exact IH.
Qed.

(** *** Scanning *)

Lemma replace_scan_skip (old new p s : str) :
  replace_scan old new (length p) (p ++ s) = replace_scan old new 0 s.
Proof. induction p as [|a p IH]; simpl; [by destruct s|done]. Qed.

Lemma replace_scan_match (c : N) (old new s : str) :
  replace_scan (c :: old) new 0 ((c :: old) ++ s)
  = new ++ replace_scan (c :: old) new 0 s.
Proof.
  change (replace_scan (c :: old) new 0 ((c :: old) ++ s))
    with (if startswith (c :: old) ((c :: old) ++ s)
          then new ++ replace_scan (c :: old) new (length (c :: old) - 1)
                        (old ++ s)
          else c :: replace_scan (c :: old) new 0 (old ++ s)).
  rewrite startswith_app.
  replace (length (c :: old) - 1) with (length old) by (simpl; lia).
  by rewrite replace_scan_skip.
Qed.

Lemma replace_scan_char (old new s : str) (c : N) :
  startswith old (c :: s) = false ->
  replace_scan old new 0 (c :: s) = c :: replace_scan old new 0 s.
Proof. intros H. simpl replace_scan. by rewrite H. Qed.

(** Characters that are not the first of [old] are kept. *)
Lemma replace_scan_foreign (c : N) (old new p s : str) :
  c ∉ p ->
  replace_scan (c :: old) new 0 (p ++ s)
  = p ++ replace_scan (c :: old) new 0 s.
Proof.
  induction p as [|a p IH]; intros Hc; [done|].
  rewrite <- app_comm_cons, replace_scan_char.
  - rewrite IH; [done|]. by apply not_elem_of_cons in Hc as [_ ?].
  - apply startswith_head. by apply not_elem_of_cons in Hc as [? _].
Qed.

(** [s.replace(old, new)] is [new.join(s.split(old))]. *)
Lemma replace_join_split (s old new : str) :
  old <> [] -> replace s old new = join new (split_scan old 0 s).
Proof.
  intros Hold. destruct old as [|c old]; [done|clear Hold].
  unfold replace.
  remember (length s) as n eqn:Hn.
  revert s Hn. induction n as [n IH] using lt_wf_ind. intros s Hn.
  destruct s as [|a s]; [done|].
  destruct (startswith (c :: old) (a :: s)) eqn:Hst.
  - apply startswith_true in Hst as [s' Hs']. rewrite Hs'.
    rewrite split_scan_sep, replace_scan_match.
    rewrite join_cons by apply split_scan_not_nil. simpl app.
    f_equal. apply (IH (length s')); [|done].
    subst n. rewrite Hs', length_app. simpl. lia.
  - rewrite split_scan_char, replace_scan_char by done.
    rewrite join_cons_head. f_equal.
    apply (IH (length s)); [subst n; simpl; lia|done].
Qed.

Lemma shift_scan_skip (seps : list str) (p s : str) :
  shift_scan seps (length p) (p ++ s) = shift_scan seps 0 s.
Proof. induction p as [|a p IH]; simpl; [by destruct s|done]. Qed.

Lemma shift_scan_match (seps : list str) (c : N) (p s lower : str) :
  find_separator seps ((c :: p) ++ s) = Some (lower, length (c :: p)) ->
  shift_scan seps 0 ((c :: p) ++ s) = lower ++ shift_scan seps 0 s.
Proof.
  intros H.
  change (shift_scan seps 0 ((c :: p) ++ s))
    with (match find_separator seps ((c :: p) ++ s) with
          | Some (lower, n) => lower ++ shift_scan seps (n - 1) (p ++ s)
          | None => c :: shift_scan seps 0 (p ++ s)
          end).
  rewrite H.
  replace (length (c :: p) - 1) with (length p) by (simpl; lia).
  by rewrite shift_scan_skip.
Qed.

Lemma shift_scan_char (seps : list str) (c : N) (s : str) :
  find_separator seps (c :: s) = None ->
  shift_scan seps 0 (c :: s) = c :: shift_scan seps 0 s.
Proof. intros H. simpl shift_scan. by rewrite H. Qed.

(** *** Which separator matches *)

Lemma match_separator_None (lo : str) (higher : list str) (s : str) :
  (forall h, h ∈ higher -> startswith h s = false) ->
  match_separator lo higher s = None.
Proof.
  revert lo. induction higher as [|hi higher IH]; intros lo H; [done|].
  simpl. rewrite IH by (intros h Hh; apply H; by right).
  rewrite (H hi) by by left. by destruct hi.
Qed.

(** When exactly the separator of level [k+1] is a prefix of [s], it is
    found, and it is to become the separator of level [k]. *)
Lemma match_separator_Some (lo : str) (higher : list str) (s : str)
    (k : nat) (hi below : str) :
  (lo :: higher) !! S k = Some hi ->
  (lo :: higher) !! k = Some below ->
  hi <> [] ->
  startswith hi s = true ->
  (forall j h, higher !! j = Some h -> j <> k -> startswith h s = false) ->
  match_separator lo higher s = Some (below, length hi).
Proof.
  revert lo k. induction higher as [|h0 higher IH]; intros lo k Hhi Hlo Hne Hst Hothers.
  - done.
  - destruct k as [|k]; simpl in Hhi, Hlo.
    + simplify_eq. simpl.
      rewrite match_separator_None.
      * rewrite Hst. by destruct hi.
      * intros h Hh. apply list_elem_of_lookup_1 in Hh as [j Hj].
        by apply (Hothers (S j)).
    + simpl. rewrite (IH h0 k Hhi Hlo Hne Hst).
      * rewrite (Hothers 0 h0) by done. by destruct h0.
      * intros j h Hj Hjk. apply (Hothers (S j)); [done|lia].
Qed.

(** *** Separators that share no character *)

Lemma separators_apart_tail (a : str) (seps : list str) :
  separators_apart (a :: seps) -> separators_apart seps.
Proof.
  intros [Hne Hd]. split.
  - by apply Forall_cons in Hne as [_ ?].
  - intros i j si sj c Hi Hj Hij. apply (Hd (S i) (S j)); [done|done|lia].
Qed.

Lemma separators_apart_nonempty (seps : list str) (i : nat) (si : str) :
  separators_apart seps -> seps !! i = Some si -> si <> [].
Proof.
  intros [Hne _] Hi. rewrite Forall_forall in Hne.
  by apply Hne, (list_elem_of_lookup_2 _ i).
Qed.

(** Two separators are never prefixes of the same string. *)
Lemma separators_apart_prefix (seps : list str) (i j : nat) (si sj s : str) :
  separators_apart seps ->
  seps !! i = Some si -> seps !! j = Some sj -> i <> j ->
  startswith si s = true -> startswith sj s = false.
Proof.
  intros Hap Hi Hj Hij Hst.
  pose proof (separators_apart_nonempty _ _ _ Hap Hi) as Hni.
  pose proof (separators_apart_nonempty _ _ _ Hap Hj) as Hnj.
  destruct Hap as [_ Hd].
  destruct si as [|a si]; [done|]. destruct sj as [|b sj]; [done|].
  destruct s as [|c s]; [done|].
  simpl in Hst. apply andb_true_iff in Hst as [Hac _].
  apply N.eqb_eq in Hac as ->.
  apply startswith_head. intros ->.
  apply (Hd i j (c :: si) (c :: sj) c Hi Hj Hij); by left.
Qed.

(** A string made of characters of the separator of level [i] is not
    touched by the shift when [i] is the lowest level. *)
Lemma startswith_foreign (h p s : str) :
  h <> [] -> p <> [] -> (forall c, c ∈ p -> c ∉ h) ->
  startswith h (p ++ s) = false.
Proof.
  intros Hh Hp Hd. destruct h as [|a h]; [done|].
  destruct p as [|b p]; [done|].
  apply startswith_head. intros ->. apply (Hd b); by left.
Qed.

Lemma shift_scan_foreign (lo : str) (higher : list str) (p s : str) :
  (forall h, h ∈ higher -> h <> [] /\ forall c, c ∈ p -> c ∉ h) ->
  shift_scan (lo :: higher) 0 (p ++ s)
  = p ++ shift_scan (lo :: higher) 0 s.
Proof.
  induction p as [|a p IH]; intros H; [done|].
  rewrite <- app_comm_cons, shift_scan_char.
  - rewrite IH; [done|]. intros h Hh. destruct (H h Hh) as [Hne Hd].
    split; [done|]. intros c Hc. apply Hd. by right.
  - apply match_separator_None. intros h Hh. destruct (H h Hh) as [Hne Hd].
    destruct h as [|b h]; [done|].
    apply startswith_head. intros ->. apply (Hd a); by left.
Qed.

(** A string foreign to [old] and [new] is a prefix after the replacement
    exactly when it was one before. *)
Lemma startswith_replace_foreign (t old new u : str) :
  old <> [] -> new <> [] ->
  (forall c, c ∈ t -> (c ∉ old) /\ (c ∉ new)) ->
  startswith t (replace_scan old new 0 u) = startswith t u.
Proof.
  intros Hold Hnew. destruct old as [|c1 old]; [done|].
  destruct new as [|d new]; [done|]. clear Hold Hnew.
  revert u. induction t as [|a t IH]; intros u Hd; [done|].
  destruct (Hd a ltac:(by left)) as [Ha1 Ha0].
  destruct u as [|b u]; [done|].
  destruct (startswith (c1 :: old) (b :: u)) eqn:Hst.
  - apply startswith_true in Hst as [u' ->].
    rewrite replace_scan_match. simpl app.
    rewrite !startswith_head; [done| |]; intros ->.
    + apply Ha1. by left.
    + apply Ha0. by left.
  - rewrite replace_scan_char by done. simpl. f_equal.
    apply IH. intros c Hc. apply Hd. by right.
Qed.

Lemma prefix_cases (l : list str) (s : str) :
  (forall h, h ∈ l -> startswith h s = false) \/
  (exists j h, l !! j = Some h /\ startswith h s = true).
Proof.
  induction l as [|h0 l IH].
  - left. intros h Hh. by apply elem_of_nil in Hh.
  - destruct (startswith h0 s) eqn:H0; [right; by exists 0, h0|].
    destruct IH as [Hnone|(j & h & Hj & Hh)].
    + left. intros h Hh. apply elem_of_cons in Hh as [->|Hh]; auto.
    + right. by exists (S j), h.
Qed.

(** One pass of the loop and the shift of the levels above it give the
    shift of all levels. *)
Lemma shift_after_replace (s0 s1 : str) (rest : list str) (v : str) :
  separators_apart (s0 :: s1 :: rest) ->
  shift_down (s1 :: rest) (replace v s1 s0)
  = shift_down (s0 :: s1 :: rest) v.
Proof.
  intros Hap.
  pose proof (separators_apart_nonempty _ 0 s0 Hap eq_refl) as Hn0.
  pose proof (separators_apart_nonempty _ 1 s1 Hap eq_refl) as Hn1.
  assert (Hdis : forall i j si sj c,
            (s0 :: s1 :: rest) !! i = Some si ->
            (s0 :: s1 :: rest) !! j = Some sj -> i <> j ->
            c ∈ si -> c ∉ sj).
  { intros i j si sj c Hi Hj Hij Hc Hc'.
    destruct Hap as [_ Hd]. exact (Hd i j si sj c Hi Hj Hij Hc Hc'). }
  destruct s1 as [|c1 t1]; [done|]. clear Hn1.
  unfold shift_down, replace.
  remember (length v) as n eqn:Hn.
  revert v Hn. induction n as [n IH] using lt_wf_ind. intros v Hn.
  destruct v as [|a v]; [done|].
  destruct (prefix_cases ((c1 :: t1) :: rest) (a :: v))
    as [Hnone|(j & h & Hj & Hh)].
  - (* no separator starts here *)
    rewrite replace_scan_char by (apply Hnone; by left).
    rewrite !shift_scan_char.
    + f_equal. apply (IH (length v)); [subst n; simpl; lia|done].
    + by apply match_separator_None.
    + apply match_separator_None. intros h Hh.
      pose proof (Hnone h ltac:(by right)) as Hf.
      apply list_elem_of_lookup_1 in Hh as [k Hk].
      destruct h as [|b h]; [done|].
      simpl in Hf |- *. destruct (b =? a)%N; [|done]. simpl in *.
      rewrite startswith_replace_foreign; [done|done|done|].
      intros c Hc. split.
      * apply (Hdis (S (S k)) 1 (b :: h) (c1 :: t1)); [done|done|lia|].
        by right.
      * apply (Hdis (S (S k)) 0 (b :: h) s0); [done|done|lia|]. by right.
  - apply startswith_true in Hh as [w Hw].
    pose proof (separators_apart_nonempty _ (S j) h Hap Hj) as Hnh.
    assert (Hlen : length w < n).
    { subst n. rewrite Hw, length_app. destruct h; [done|simpl; lia]. }
    rewrite Hw. destruct j as [|j]; simpl in Hj.
    + (* the separator of level 1: replaced, then kept *)
      simplify_eq. rewrite replace_scan_match.
      rewrite shift_scan_foreign.
      * rewrite (shift_scan_match _ c1 t1 w s0).
        { f_equal. by apply (IH (length w)). }
        apply (match_separator_Some s0 _ _ 0); try done.
        { apply startswith_app. }
        intros k h Hk Hk0. destruct k as [|k]; [done|].
        apply (separators_apart_prefix _ 1 (S (S k)) (c1 :: t1) h _ Hap);
          [done|done|lia|apply startswith_app].
      * intros h Hh. apply list_elem_of_lookup_1 in Hh as [k Hk]. split.
        { by apply (separators_apart_nonempty _ (S (S k)) h Hap). }
        intros c Hc. by apply (Hdis 0 (S (S k)) s0 h).
    + (* a separator of a level above 1: kept, then shifted *)
      rewrite replace_scan_foreign.
      2:{ apply (Hdis 1 (S (S j)) (c1 :: t1) h); [done|done|lia|by left]. }
      destruct h as [|b h]; [done|].
      destruct (((c1 :: t1) :: rest) !! j) as [below|] eqn:Hbelow.
      2:{ apply lookup_ge_None in Hbelow. apply lookup_lt_Some in Hj.
          simpl in Hbelow. lia. }
      rewrite (shift_scan_match _ b h _ below).
      * rewrite (shift_scan_match _ b h _ below).
        { f_equal. by apply (IH (length w)). }
        apply (match_separator_Some s0 _ _ (S j)); try done.
        { apply startswith_app. }
        intros k h' Hk Hkj.
        apply (separators_apart_prefix _ (S (S j)) (S k) (b :: h) h' _ Hap);
          [done|done|lia|apply startswith_app].
      * apply (match_separator_Some (c1 :: t1) _ _ j); try done.
        { apply startswith_app. }
        intros k h' Hk Hkj.
        apply (separators_apart_prefix _ (S (S j)) (S (S k)) (b :: h) h' _
                 Hap); [done|done|lia|apply startswith_app].
Qed.

Lemma shift_down_lowest (seps : list str) (v : str) :
  length seps <= 1 -> shift_down seps v = v.
Proof.
  intros Hlen. unfold shift_down.
  assert (Hnone : forall s, find_separator seps s = None).
  { intros s. destruct seps as [|lo [|hi rest]]; [done|done|simpl in Hlen; lia]. }
  induction v as [|a v IH]; [done|].
  rewrite shift_scan_char by apply Hnone. by rewrite IH.
Qed.

(** The loop of [get_item_type_value] shifts every level at once when the
    separators share no character. *)
Lemma lower_all_shift_down (seps : list str) (v : str) :
  separators_apart seps -> lower_all seps v = shift_down seps v.
Proof.
  revert v. induction seps as [|s0 seps IH]; intros v Hap.
  - by rewrite shift_down_lowest by (simpl; lia).
  - destruct seps as [|s1 rest].
    + by rewrite shift_down_lowest by (simpl; lia).
    + change (lower_all (s0 :: s1 :: rest) v)
        with (lower_all (s1 :: rest) (replace v s1 s0)).
      rewrite IH by by apply separators_apart_tail in Hap.
      by apply shift_after_replace.
Qed.

End LevelShift.

Section InlineItems.
Import PyStr.

Lemma separators_apart_default : separators_apart TOKEN_SEPARATORS.
Proof.
  split; [by repeat constructor|].
  intros i j si sj c Hi Hj Hij Hc Hc'.
  assert (Hin : forall (x : N) (l : str), x ∈ l -> bool_decide (x ∈ l) = true)
    by (intros; by apply bool_decide_eq_true).
  destruct i as [|[|[|i]]], j as [|[|[|j]]]; try done;
    vm_compute in Hi, Hj; simplify_eq;
    repeat (apply elem_of_cons in Hc as [->|Hc]);
    try (by apply elem_of_nil in Hc);
    apply Hin in Hc'; vm_compute in Hc'; done.
Qed.

Example get_item_type_value_default :
  get_item_type_value (py "item_external,,action,,Net,,,,up,,say;;hello")
    TOKEN_SEPARATORS
  = Ok (ItemExternal_cls, py "action::Net::::up::say,,hello").
Proof. reflexivity. Qed.

(** The names [item], [audiomenu] and [syncthingmenu] cannot be
    imported. *)
Example get_item_type_value_missing_module :
  get_item_type_value (py "item,,action,,Net,,,,up,,hello") TOKEN_SEPARATORS
  = Raise ModuleNotFoundError.
Proof. reflexivity. Qed.

Example get_item_type_value_unknown :
  get_item_type_value (py "nothing,,x") TOKEN_SEPARATORS
  = Raise (SystemExit 1).
Proof. reflexivity. Qed.

Example get_item_type_value_one_separator :
  get_item_type_value (py "item_external,,x") [py "::"] = Raise IndexError.
Proof. reflexivity. Qed.

Example MenuInline_set_items_two :
  MenuInline_set_items (default_configuration rofi)
    (py "item_external,,action,,,,,,,,one::zerotiernetwork,,abc,,home")
  = Ok [(ItemExternal_cls, py "action::::::::one");
        (ItemZerotierNetwork_cls, py "abc::home")].
Proof. reflexivity. Qed.

(** C8, as the code has it.  Let the separators be non-empty and share no
    character, let [sep1] be the one of level 1 and [name] a registered
    name without the first character of [sep1].  For the entry
    [name + sep1 + v], [get_item_type_value] returns the class of [name]
    and [v] in which every occurrence of a separator of level [i+1], read
    from left to right, is replaced by the separator of level [i]. *)
Theorem get_item_type_value_shift (seps : list str) (name v sep1 : str)
    (c : N) (k : item_class) :
  separators_apart seps ->
  seps !! 1 = Some (c :: sep1) ->
  c ∉ name ->
  get_item_class name = Ok k ->
  get_item_type_value (name ++ (c :: sep1) ++ v) seps
  = Ok (k, shift_down seps v).
Proof.
  intros Hap Hsep Hname Hk. unfold get_item_type_value, separator, split.
  rewrite Hsep. cbn [bind]. rewrite split_scan_token by done.
  rewrite Hk. cbn [bind].
  rewrite join_split_scan by done.
  rewrite (reduce_levels_lower_all [] seps v
           : reduce_levels seps (seq 0 (length seps - 1)) v = _).
  cbn [bind].
  by rewrite lower_all_shift_down.
Qed.

Lemma get_item_type_value_shift_witness :
  get_item_type_value
    (py "item_external" ++ py ",," ++ py "action,,Net;;x,,hello")
    TOKEN_SEPARATORS
  = Ok (ItemExternal_cls,
        shift_down TOKEN_SEPARATORS (py "action,,Net;;x,,hello")).
Proof.
  apply (get_item_type_value_shift TOKEN_SEPARATORS (py "item_external")
           (py "action,,Net;;x,,hello") (py ",") 44%N ItemExternal_cls).
  - apply separators_apart_default.
  - reflexivity.
  - apply (bool_decide_eq_false_1 (44%N ∈ py "item_external")). vm_compute.
    reflexivity.
  - reflexivity.
Defined.

Example shift_down_default :
  shift_down TOKEN_SEPARATORS (py "action,,Net;;x,,hello")
  = py "action::Net,,x::hello".
Proof. reflexivity. Qed.

(** The claim C8 as it is worded fails when a separator is part of
    another one.  With the separators [x], [y], [xx] and the entry
    [zerotiernetwork + y + yy], the value [yy] holds the separator of
    level 1 twice and becomes [xx] when each is taken down one level; the
    loop goes on and turns this [xx] into [y]. *)
Lemma get_item_type_value_not_shift :
  get_item_type_value (py "zerotiernetwork" ++ py "y" ++ py "yy")
    [py "x"; py "y"; py "xx"]
  = Ok (ItemZerotierNetwork_cls, py "y")
  /\ shift_down [py "x"; py "y"; py "xx"] (py "yy") = py "xx"
  /\ get_item_type_value (py "zerotiernetwork" ++ py "y" ++ py "yy")
       [py "x"; py "y"; py "xx"]
     <> Ok (ItemZerotierNetwork_cls,
            shift_down [py "x"; py "y"; py "xx"] (py "yy")).
Proof. vm_compute. repeat split; discriminate. Qed.

(** Whatever the separators are, the value returned is the value after
    the passes of the loop, one level after the other. *)
Lemma get_item_type_value_passes (seps : list str) (name v sep1 : str)
    (c : N) (k : item_class) :
  seps !! 1 = Some (c :: sep1) ->
  c ∉ name ->
  get_item_class name = Ok k ->
  get_item_type_value (name ++ (c :: sep1) ++ v) seps
  = Ok (k, lower_all seps v).
Proof.
  intros Hsep Hname Hk. unfold get_item_type_value, separator, split.
  rewrite Hsep. cbn [bind]. rewrite split_scan_token by done.
  rewrite Hk. cbn [bind].
  rewrite join_split_scan by done.
  by rewrite (reduce_levels_lower_all [] seps v
              : reduce_levels seps (seq 0 (length seps - 1)) v = _).
Qed.

End InlineItems.

(** * More of the code

    What follows covers code around the places studied above: what the
    codec keeps and trims, how a line read back is matched, the effects of
    [show], the constructors of items, the options of a menu and the loop
    of [Menu.execute]. *)

(** ** The token codec, continued *)

Section CodecMore.
Import PyStr.

(** [s] does not start with white space. *)
Definition no_lead (s : str) : Prop :=
  match s with
  | c :: _ => isspace c = false
  | [] => True
  end.

Lemma lstrip_no_lead (s : str) : no_lead (lstrip s).
Proof.
  induction s as [|c s IH]; [done|]. simpl.
  destruct (isspace c) eqn:Hc; [done|]. by simpl.
Qed.

Lemma lstrip_id (s : str) : no_lead s -> lstrip s = s.
Proof. destruct s as [|c s]; [done|]. simpl. by intros ->. Qed.

Lemma rstrip_no_lead (s : str) : no_lead s -> no_lead (rstrip s).
Proof.
  destruct s as [|c s]; [done|]. simpl. intros Hc.
  destruct (rstrip s); by rewrite ?Hc.
Qed.

Lemma rstrip_rstrip (s : str) : rstrip (rstrip s) = rstrip s.
Proof.
  induction s as [|c s IH]; [done|]. simpl.
  destruct (rstrip s) as [|b r] eqn:Hr.
  - destruct (isspace c) eqn:Hc; [done|]. simpl. by rewrite Hc.
  - change (rstrip (c :: b :: r))
      with (match rstrip (b :: r) with
            | [] => if isspace c then [] else [c]
            | r' => c :: r'
            end).
    by rewrite IH.
Qed.

Lemma strip_strip (s : str) : strip (strip s) = strip s.
Proof.
  unfold strip.
  rewrite (lstrip_id (rstrip (lstrip s)))
    by apply rstrip_no_lead, lstrip_no_lead.
  apply rstrip_rstrip.
Qed.

(** X1.  With a separator that is not empty, [str2item_texts] always
    returns, and the remaining value is the end of the text it was
    given. *)
Theorem str2item_texts_remainder_suffix (text0 d : str) :
  d <> [] ->
  exists t rem prefix,
    str2item_texts text0 d = Ok (t, rem) /\ text0 = prefix ++ rem.
Proof.
  intros Hd. unfold str2item_texts, split.
  destruct d as [|c d]; [done|]. cbn [bind].
  pose proof (join_split_scan (c :: d) text0 Hd) as Hjoin.
  destruct (split_scan (c :: d) 0 text0)
    as [|t0 [|t1 [|t2 [|t3 [|t4 rest]]]]];
    try (by eexists _, _, []).
  destruct (ItemTextType_by_name (strip t0)); [|by eexists _, _, []].
  rewrite !(join_cons _ t0), !(join_cons _ t1), !(join_cons _ t2),
    !(join_cons _ t3) in Hjoin by done.
  destruct rest as [|r rest].
  - eexists _, _, _. split; [done|]. rewrite <- Hjoin at 1.
    simpl join. rewrite app_nil_r. by rewrite !app_assoc.
  - eexists _, _, _. split; [done|]. rewrite <- Hjoin at 1.
    rewrite (join_cons _ t4) by done. by rewrite !app_assoc.
Qed.

Lemma str2item_texts_remainder_suffix_witness :
  exists t rem prefix,
    str2item_texts (py "menu::1::2::busy::hello world::left::over")
      (py "::") = Ok (t, rem)
    /\ py "menu::1::2::busy::hello world::left::over" = prefix ++ rem.
Proof.
  apply (str2item_texts_remainder_suffix
           (py "menu::1::2::busy::hello world::left::over") (py "::")).
  vm_compute. discriminate.
Defined.

(** X2.  What [str2item_texts] returns is normalised: the type is the
    value of a member of [ItemTextType], the category, the subcategory and
    the status carry no white space at their ends, nor does the text
    unless the type is [raw], and the field for the menu line is empty. *)
Theorem str2item_texts_trimmed (text0 d : str) (t : ItemTexts) (rem : str) :
  str2item_texts text0 d = Ok (t, rem) ->
  (exists ty, type_ t = ItemTextType_value ty) /\
  strip (category t) = category t /\
  strip (subcategory t) = subcategory t /\
  strip (status t) = status t /\
  (type_ t <> ItemTextType_value raw -> strip (text t) = text t) /\
  menu_text t = [].
Proof.
  unfold str2item_texts, split. destruct d as [|c d]; [done|]. cbn [bind].
  assert (Hdef : (exists ty, type_ ItemTexts_default = ItemTextType_value ty)
                 /\ strip [] = [] /\ strip [] = [] /\ strip [] = []
                 /\ (type_ ItemTexts_default <> ItemTextType_value raw ->
                     strip (text ItemTexts_default) = [])
                 /\ menu_text ItemTexts_default = []).
  { repeat split; try done. by exists raw. }
  destruct (split_scan (c :: d) 0 text0)
    as [|t0 [|t1 [|t2 [|t3 [|t4 rest]]]]];
    try (intros; by simplify_eq).
  destruct (ItemTextType_by_name (strip t0)) as [ty|];
    [|intros; by simplify_eq].
  intros H. simplify_eq. simpl.
  rewrite !strip_strip. repeat split; try done; [by exists ty|].
  destruct ty; intros Hty; try done; apply strip_strip.
Qed.

Lemma str2item_texts_trimmed_witness :
  (exists ty, py "<action>" = ItemTextType_value ty) /\
  strip (py "Net") = py "Net" /\
  strip [] = [] /\
  strip (py "up") = py "up" /\
  (py "<action>" <> ItemTextType_value raw ->
   strip (py "say hello") = py "say hello") /\
  ([] : str) = [].
Proof.
  exact (str2item_texts_trimmed
           (py " action :: Net ::  :: up :: say hello ::rest") (py "::")
           (mkItemTexts (py "<action>") (py "Net") [] (py "up")
              (py "say hello") [])
           (py "rest") eq_refl).
Defined.

End CodecMore.

(** ** The adapters, continued *)

Section AdaptersMore.
Import PyStr.

(** X3.  [get_selected_item] returns the first item whose menu line is the
    text, and nothing when no item has this line. *)
Theorem get_selected_item_first (items : list BaseItem) (line : str) :
  match get_selected_item items line with
  | Some item =>
      exists i, items !! i = Some item /\
                menu_text (texts item) = line /\
                forall j other, j < i -> items !! j = Some other ->
                                menu_text (texts other) <> line
  | None => forall item, item ∈ items -> menu_text (texts item) <> line
  end.
Proof.
  unfold get_selected_item.
  induction items as [|a items IH]; simpl.
  - intros item H. by apply elem_of_nil in H.
  - destruct (eqb (menu_text (texts a)) line) eqn:Ha.
    + apply eqb_eq in Ha. exists 0. repeat split; [done|]. intros; lia.
    + apply eqb_neq in Ha.
      destruct (find _ items) as [item|].
      * destruct IH as (i & Hi & Hline & Hfirst).
        exists (S i). repeat split; [done..|].
        intros [|j] other Hj Hother; simpl in Hother.
        -- by simplify_eq.
        -- apply (Hfirst j); [lia|done].
      * intros item Hin. apply elem_of_cons in Hin as [->|Hin]; auto.
Qed.

(** X4.  When [RofiInterface.run_menu] answers [selected], it gives an
    item of the menu whose line is the output of rofi without the white
    space at its end, and the exit status was none of 10, 11 and 1. *)
Theorem Rofi_run_menu_selected_line (items : list BaseItem) (timeout : Q)
    (p : picker_run) (o : option BaseItem) :
  Rofi_run_menu items timeout p = Ok (selected, o) ->
  exists item,
    o = Some item /\ item ∈ items /\
    menu_text (texts item) = rstrip (stdout p) /\
    returncode p <> 10%Z /\ returncode p <> 11%Z /\ returncode p <> 1%Z.
Proof.
  unfold Rofi_run_menu. destruct (timeout_raised timeout p); [done|].
  destruct (rstrip (stdout p)) as [|c r] eqn:Hr; simpl nonempty; cbv iota.
  - destruct (Z.eqb_spec (returncode p) 10), (Z.eqb_spec (returncode p) 11),
      (Z.eqb_spec (returncode p) 1); simpl; congruence.
  - destruct (get_selected_item items (c :: r)) as [item|] eqn:Hitem;
      destruct (Z.eqb_spec (returncode p) 10),
        (Z.eqb_spec (returncode p) 11), (Z.eqb_spec (returncode p) 1);
      simpl; try congruence.
    intros H. simplify_eq. exists item.
    apply get_selected_item_Some in Hitem as [Hin Hline]. by repeat split.
Qed.

Lemma Rofi_run_menu_selected_line_witness :
  exists item,
    Some (raw_item (py "beta")) = Some item /\
    item ∈ [raw_item (py "alpha"); raw_item (py "beta")] /\
    menu_text (texts item) = rstrip (py "beta" ++ newline) /\
    0%Z <> 10%Z /\ 0%Z <> 11%Z /\ 0%Z <> 1%Z.
Proof.
  exact (Rofi_run_menu_selected_line
           [raw_item (py "alpha"); raw_item (py "beta")] 0
           (mkPickerRun (py "beta" ++ newline) 0 3)
           (Some (raw_item (py "beta"))) eq_refl).
Defined.

Lemma Rofi_run_menu_no_match_witness :
  Rofi_run_menu [raw_item (py "alpha")] 0
    (mkPickerRun (py "zzz" ++ newline) 0 3)
  = Ok (restart, None).
Proof.
  apply (Rofi_run_menu_no_match [raw_item (py "alpha")] 0
           (mkPickerRun (py "zzz" ++ newline) 0 3) (py "zzz"));
    [reflexivity|reflexivity|reflexivity|discriminate].
Defined.

(** X6.  [FzfInterface.run_menu] has an answer for every output of fzf:
    the only exception it raises is the exit with the quit code, on the key
    [ctrl-q], and the action it returns is never [quit]. *)
Theorem Fzf_run_menu_outcomes (items : list BaseItem) (timeout : Q)
    (p : picker_run) :
  (forall e, Fzf_run_menu items timeout p = Raise e ->
     e = SystemExit QUIT_EXIT_CODE /\
     timeout_raised timeout p = false /\
     exists l0 ls, splitlines (stdout p) = l0 :: ls /\
                   rstrip l0 = py "ctrl-q") /\
  (forall a o, Fzf_run_menu items timeout p = Ok (a, o) -> a <> quit).
Proof.
  unfold Fzf_run_menu. destruct (timeout_raised timeout p).
  { split; intros; by simplify_eq. }
  destruct (splitlines (stdout p)) as [|l0 [|l1 [|l2 ls]]]; simpl;
    try (split; intros; by simplify_eq);
    destruct (eqb (rstrip l0) (py "ctrl-r")),
      (eqb (rstrip l0) (py "f5")),
      (eqb (rstrip l0) (py "ctrl-q")) eqn:Hq,
      (eqb (rstrip l0) (py "esc"));
    simpl; try (split; intros; by simplify_eq);
    try (apply eqb_eq in Hq; split; intros; simplify_eq; by eauto 10).
  all: destruct (rstrip l1); split; intros; by simplify_eq.
Qed.

End AdaptersMore.

(** ** Rendering, continued *)

Section RenderingMore.
Import PyStr.

Variable apply_tokens : str -> str.

Lemma formatted_texts_set_menu_text (m : str) (item : BaseItem) :
  formatted_texts apply_tokens (texts (set_menu_text m item))
  = formatted_texts apply_tokens (texts item).
Proof. done. Qed.

Lemma non_raw_map_set_menu (g : BaseItem -> str) (items : list BaseItem) :
  non_raw (map (fun a => set_menu_text (g a) a) items)
  = map (fun a => set_menu_text (g a) a) (non_raw items).
Proof.
  unfold non_raw. induction items as [|a items IH]; [done|]. simpl.
  rewrite is_raw_set_menu_text. destruct (is_raw a); simpl; by rewrite IH.
Qed.

Lemma max_len_map_set_menu (f : ItemTexts -> str) (g : BaseItem -> str)
    (l : list BaseItem) :
  max_len apply_tokens f (map (fun a => set_menu_text (g a) a) l)
  = max_len apply_tokens f l.
Proof. unfold max_len. by rewrite map_map. Qed.

(** X7.  [format_items_text] changes nothing but the menu lines: the
    items keep their order, identifier and visibility, and formatting the
    formatted items again gives the same lines. *)
Theorem format_items_text_again (items : list BaseItem) :
  map identifier (format_items_text apply_tokens items)
  = map identifier items
  /\ map visible (format_items_text apply_tokens items) = map visible items
  /\ format_items_text apply_tokens (format_items_text apply_tokens items)
     = format_items_text apply_tokens items.
Proof.
  rewrite !format_items_text_map, !map_map. split; [done|]. split; [done|].
  apply map_ext. intros a. unfold rendered_line.
  rewrite non_raw_map_set_menu, !max_len_map_set_menu,
    is_raw_set_menu_text.
  by destruct (is_raw a).
Qed.

(** The width of the columns in front of the text. *)
Definition text_column (items : list BaseItem) : nat :=
  let W f := max_len apply_tokens f (non_raw items) in
  1 + W type_
  + (if Nat.eqb (W category) 0 then 0 else 1 + W category)
  + (if Nat.eqb (W subcategory) 0 then 0 else 1 + W subcategory)
  + (if Nat.eqb (W status) 0 then 0 else 2 + W status)
  + (if Nat.eqb (W text) 0 then 0 else 2).

Lemma subcategory_column_length (sub : str) (w : nat) :
  length sub <= w ->
  length (match sub with
          | _ :: _ => py "/" ++ ljust sub w
          | [] => replicate (w + 1) space
          end) = 1 + w.
Proof.
  intros H. destruct sub as [|c sub].
  - rewrite length_replicate. lia.
  - rewrite length_app, length_ljust by done. by simpl.
Qed.

(** X8.  In the lines of the items that are not raw, the text starts at
    the same column: every such line is the formatted text of its item
    after [text_column items] characters. *)
Theorem format_items_text_text_column (items : list BaseItem) (i : nat)
    (item : BaseItem) :
  items !! i = Some item ->
  is_raw item = false ->
  exists head,
    format_items_text apply_tokens items !! i
    = Some (set_menu_text
              (head ++ text (formatted_texts apply_tokens (texts item)))
              item)
    /\ length head = text_column items.
Proof.
  intros Hi Hraw.
  assert (item ∈ non_raw items) as Hnr.
  { apply elem_of_non_raw. split; [by apply (list_elem_of_lookup_2 _ i)|done]. }
  rewrite format_items_text_map.
  assert (Hmap : forall (g : BaseItem -> BaseItem),
            map g items !! i = Some (g item)).
  { intros g. clear Hnr. revert i Hi.
    induction items as [|a l IH]; intros [|i] Hi; simplify_eq/=; auto. }
  rewrite Hmap. unfold rendered_line, menu_line, text_column.
  rewrite Hraw.
  set (ft := formatted_texts apply_tokens (texts item)).
  pose proof (length_ljust _ _ (max_len_ge apply_tokens type_ _ _ Hnr)) as Lt.
  pose proof (length_rjust _ _ (max_len_ge apply_tokens category _ _ Hnr))
    as Lc.
  pose proof (subcategory_column_length _ _
                (max_len_ge apply_tokens subcategory _ _ Hnr)) as Ls.
  pose proof (length_rjust _ _ (max_len_ge apply_tokens status _ _ Hnr))
    as Lst.
  pose proof (max_len_ge apply_tokens text _ _ Hnr) as Lx.
  fold ft in Lt, Lc, Ls, Lst, Lx.
  set (sub := match subcategory ft with
              | _ :: _ => py "/" ++ ljust (subcategory ft)
                            (max_len apply_tokens subcategory (non_raw items))
              | [] => replicate
                        (max_len apply_tokens subcategory (non_raw items) + 1)
                        space
              end) in *.
  assert (Hhead : exists head,
    (let t0 := [space] ++ ljust (type_ ft)
                 (max_len apply_tokens type_ (non_raw items)) in
     let t1 := if Nat.eqb (max_len apply_tokens category (non_raw items)) 0
               then t0
               else t0 ++ [space]
                    ++ rjust (category ft)
                         (max_len apply_tokens category (non_raw items)) in
     let t2 := if Nat.eqb (max_len apply_tokens subcategory (non_raw items)) 0
               then t1 else t1 ++ sub in
     let t3 := if Nat.eqb (max_len apply_tokens status (non_raw items)) 0
               then t2
               else t2 ++ [space; space]
                    ++ rjust (status ft)
                         (max_len apply_tokens status (non_raw items)) in
     if Nat.eqb (max_len apply_tokens text (non_raw items)) 0 then t3
     else t3 ++ [space; space] ++ text ft) = head ++ text ft
    /\ length head = text_column items).
  { unfold text_column. cbv zeta.
    destruct (Nat.eqb_spec (max_len apply_tokens text (non_raw items)) 0)
      as [Hz|Hz].
    - assert (text ft = []) as ->.
      { destruct (text ft); [done|simpl in Lx; lia]. }
      eexists. rewrite app_nil_r. split; [done|].
      destruct (Nat.eqb (max_len apply_tokens category (non_raw items)) 0),
        (Nat.eqb (max_len apply_tokens subcategory (non_raw items)) 0),
        (Nat.eqb (max_len apply_tokens status (non_raw items)) 0);
        rewrite ?length_app, ?Lt, ?Lc, ?Ls, ?Lst; simpl; lia.
    - eexists. rewrite (app_assoc _ [space; space] (text ft)).
      split; [done|].
      destruct (Nat.eqb (max_len apply_tokens category (non_raw items)) 0),
        (Nat.eqb (max_len apply_tokens subcategory (non_raw items)) 0),
        (Nat.eqb (max_len apply_tokens status (non_raw items)) 0);
        rewrite ?length_app, ?Lt, ?Lc, ?Ls, ?Lst; simpl; lia. }
  destruct Hhead as (head & Hline & Hlen).
  exists head. split; [|done]. do 2 f_equal. rewrite <- Hline.
  unfold sub. cbv zeta.
  destruct (Nat.eqb (max_len apply_tokens category (non_raw items)) 0),
    (Nat.eqb (max_len apply_tokens subcategory (non_raw items)) 0),
    (Nat.eqb (max_len apply_tokens status (non_raw items)) 0),
    (Nat.eqb (max_len apply_tokens text (non_raw items)) 0);
    try destruct (subcategory ft); done.
Qed.

End RenderingMore.

Section RenderingMoreExamples.

Lemma format_items_text_text_column_witness :
  exists head,
    format_items_text (fun t => t) [short_action; long_action] !! 0
    = Some (set_menu_text
              (head ++ text (formatted_texts (fun t => t)
                               (texts short_action)))
              short_action)
    /\ length head = text_column (fun t => t) [short_action; long_action].
Proof.
  exact (format_items_text_text_column (fun t => t)
           [short_action; long_action] 0 short_action eq_refl eq_refl).
Defined.

End RenderingMoreExamples.

(** ** Substitution of the text tokens, the row offered *)

Section TokensMore.
Import PyStr.

Lemma length_replace (s old new : str) :
  old <> [] -> length new <= length old ->
  length (replace s old new) <= length s.
Proof.
  intros Hold Hlen. destruct old as [|c old]; [done|clear Hold].
  unfold replace.
  remember (length s) as n eqn:Hn.
  revert s Hn. induction n as [n IH] using lt_wf_ind. intros s Hn.
  destruct s as [|a s]; [simpl; lia|].
  destruct (startswith (c :: old) (a :: s)) eqn:Hst.
  - apply startswith_true in Hst as [s' Hs']. rewrite Hs' in Hn |- *.
    rewrite replace_scan_match, length_app. rewrite length_app in Hn.
    assert (length s' < n) as Hlt by (simpl in Hn; lia).
    specialize (IH (length s') Hlt s' eq_refl). lia.
  - rewrite replace_scan_char by done. simpl in Hn |- *.
    assert (length s < n) as Hlt by lia.
    specialize (IH (length s) Hlt s eq_refl). lia.
Qed.

Lemma replace_absent (s old new : str) (c : N) :
  c ∉ s -> replace s (c :: old) new = s.
Proof.
  intros Hc. unfold replace.
  rewrite <- (app_nil_r s) at 1.
  rewrite replace_scan_foreign by done. simpl. apply app_nil_r.
Qed.

Lemma text_substitutions_shrink :
  Forall (fun kv => fst kv <> [] /\ length (snd kv) <= length (fst kv))
    text_substitutions.
Proof.
  unfold text_substitutions.
  repeat (apply Forall_cons; split; [split; [done|vm_compute; lia]|]).
  by apply Forall_nil.
Qed.

Lemma text_substitutions_open :
  Forall (fun kv => exists rest, fst kv = 60%N :: rest) text_substitutions.
Proof.
  unfold text_substitutions.
  repeat (apply Forall_cons; split; [by eexists|]).
  by apply Forall_nil.
Qed.

(** X9.  Substituting the text tokens never makes a text longer: every
    name between angle brackets gives way to one glyph. *)
Theorem text_apply_tokens_length (k : interface_t) (w : World) (t : str) :
  length (text_apply_tokens k w t) <= length t.
Proof.
  unfold text_apply_tokens.
  destruct (match k with
            | rofi => env_RAW w
            | fzf => env_RAW w || is_console w
            end); [done|].
  pose proof text_substitutions_shrink as H.
  revert t. induction H as [|[key glyph] table [Hkey Hlen] _ IH]; intros t.
  - done.
  - simpl. etrans; [apply IH|]. by apply length_replace.
Qed.

(** X10.  A text without the character [<] is left as it is by the
    substitution, whatever the environment. *)
Theorem text_apply_tokens_plain (k : interface_t) (w : World) (t : str) :
  60%N ∉ t -> text_apply_tokens k w t = t.
Proof.
  intros Ht. unfold text_apply_tokens.
  destruct (match k with
            | rofi => env_RAW w
            | fzf => env_RAW w || is_console w
            end); [done|].
  pose proof text_substitutions_open as H.
  induction H as [|[key glyph] table [rest Hkey] _ IH]; [done|].
  simpl in *. subst key. by rewrite replace_absent.
Qed.

Lemma text_apply_tokens_plain_witness :
  text_apply_tokens rofi
    (mkWorld false false (fun i => Ok (texts i))
       (fun _ _ _ => mkPickerRun [] 0 0) (fun _ => Ok tt))
    (py "home (toggle)")
  = py "home (toggle)".
Proof.
  apply (text_apply_tokens_plain rofi _ (py "home (toggle)")).
  apply (bool_decide_eq_false_1 (60%N ∈ py "home (toggle)")).
  vm_compute. reflexivity.
Defined.

Example text_apply_tokens_status :
  text_apply_tokens rofi
    (mkWorld false false (fun i => Ok (texts i))
       (fun _ _ _ => mkPickerRun [] 0 0) (fun _ => Ok tt))
    (py "<running> since <ok>")
  = [0xe602%N] ++ py " since " ++ [0xf00c%N].
Proof. reflexivity. Qed.

Lemma first_index_Some {A} (p : A -> bool) (l : list A) (i : nat) :
  first_index p l = Some i ->
  exists x, l !! i = Some x /\ p x = true /\
            forall j y, j < i -> l !! j = Some y -> p y = false.
Proof.
  revert i. induction l as [|a l IH]; intros i H; [done|]. simpl in H.
  destruct (p a) eqn:Ha.
  - simplify_eq. exists a. repeat split; [done|]. intros; lia.
  - destruct (first_index p l) as [i'|]; [|done]. simpl in H. simplify_eq.
    destruct (IH i' eq_refl) as (x & Hx & Hpx & Hfirst).
    exists x. repeat split; [done..|].
    intros [|j] y Hj Hy; simpl in Hy; [by simplify_eq|].
    apply (Hfirst j); [lia|done].
Qed.

Lemma first_index_None {A} (p : A -> bool) (l : list A) :
  first_index p l = None -> forall x, x ∈ l -> p x = false.
Proof.
  induction l as [|a l IH]; intros H x Hx; [by apply elem_of_nil in Hx|].
  simpl in H. destruct (p a) eqn:Ha; [done|].
  destruct (first_index p l); [done|].
  apply elem_of_cons in Hx as [->|Hx]; auto.
Qed.

(** X11.  [Interface.run] offers the row of the first item that has the
    identifier selected last, and the first row when there is none: the
    row it hands to the picker is a row of the menu whenever the menu is
    not empty. *)
Theorem Interface_run_row (w : World) (k : interface_t)
    (title last : str) (items : list BaseItem) (timeout : Q) :
  exists row,
    Interface_run w k title last items timeout
    = (let items' := format_items_text (text_apply_tokens k w) items in
       let lines := map (fun i => menu_text (texts i)) items' in
       match k with
       | rofi => Rofi_run_menu items' timeout (w_picker w title row lines)
       | fzf => Fzf_run_menu items' timeout
                  (w_picker w (title ++ py " >") row lines)
       end)
    /\ (items <> [] -> row < length items)
    /\ (forall item, item ∈ items -> identifier item = last ->
          exists first, items !! row = Some first /\
                        identifier first = last /\
                        forall j other, j < row -> items !! j = Some other ->
                                        identifier other <> last)
    /\ ((forall item, item ∈ items -> identifier item <> last) -> row = 0).
Proof.
  unfold Interface_run.
  destruct (first_index (fun item => eqb (identifier item) last) items)
    as [i|] eqn:Hidx.
  - apply first_index_Some in Hidx as (x & Hx & Hpx & Hfirst).
    apply eqb_eq in Hpx. exists i.
    split; [reflexivity|]. split; [|split].
    + intros _. by apply lookup_lt_Some in Hx.
    + intros item _ _. exists x. repeat split; [done..|].
      intros j other Hj Hother. by apply eqb_neq, (Hfirst j).
    + intros Hnone. destruct (Hnone x); [|done].
      by apply (list_elem_of_lookup_2 _ i).
  - pose proof (first_index_None _ _ Hidx) as Hnone.
    exists 0. split; [reflexivity|]. split; [|split; [|done]].
    + intros Hne. destruct items; [done|simpl; lia].
    + intros item Hin Hid. apply Hnone in Hin. by apply eqb_neq in Hin.
Qed.

End TokensMore.

(** ** Menu.show, continued *)

Section ShowMore.
Import PyStr.

Lemma Rofi_run_menu_item (items : list BaseItem) (timeout : Q)
    (p : picker_run) (a : next_action_t) (item : BaseItem) :
  Rofi_run_menu items timeout p = Ok (a, Some item) -> item ∈ items.
Proof.
  unfold Rofi_run_menu. destruct (timeout_raised timeout p); [done|].
  destruct (nonempty (rstrip (stdout p))) as [line|].
  - destruct (get_selected_item items line) as [it|] eqn:Hit.
    + apply get_selected_item_Some in Hit as [Hin _].
      destruct (returncode p =? 10)%Z, (returncode p =? 11)%Z,
        (returncode p =? 1)%Z; simpl; intros; by simplify_eq.
    + destruct (returncode p =? 10)%Z, (returncode p =? 11)%Z,
        (returncode p =? 1)%Z; simpl; intros; by simplify_eq.
  - destruct (returncode p =? 10)%Z, (returncode p =? 11)%Z,
      (returncode p =? 1)%Z; simpl; intros; by simplify_eq.
Qed.

Lemma Fzf_run_menu_item (items : list BaseItem) (timeout : Q)
    (p : picker_run) (a : next_action_t) (item : BaseItem) :
  Fzf_run_menu items timeout p = Ok (a, Some item) -> item ∈ items.
Proof.
  unfold Fzf_run_menu. destruct (timeout_raised timeout p); [done|].
  destruct (splitlines (stdout p)) as [|l0 [|l1 [|l2 ls]]]; simpl;
    try (intros; by simplify_eq);
    destruct (eqb (rstrip l0) (py "ctrl-r")),
      (eqb (rstrip l0) (py "f5")), (eqb (rstrip l0) (py "ctrl-q")),
      (eqb (rstrip l0) (py "esc"));
    simpl; try (intros; by simplify_eq);
    destruct (get_selected_item items (rstrip l1)) as [it|] eqn:Hit;
    try apply get_selected_item_Some in Hit as [Hin _];
    try destruct (rstrip l1); intros; by simplify_eq.
Qed.

Lemma Interface_run_item (w : World) (k : interface_t) (title last : str)
    (items : list BaseItem) (timeout : Q) (a : next_action_t)
    (item : BaseItem) :
  Interface_run w k title last items timeout = Ok (a, Some item) ->
  item ∈ format_items_text (text_apply_tokens k w) items.
Proof.
  unfold Interface_run. destruct k.
  - apply Rofi_run_menu_item.
  - apply Fzf_run_menu_item.
Qed.

Lemma timeout_raised_slow (timeout : Q) (p : picker_run) :
  truthy timeout = true -> (timeout < duration p)%Q ->
  timeout_raised timeout p = true.
Proof.
  intros Ht Hlt. unfold timeout_raised. rewrite Ht. simpl.
  apply negb_true_iff. destruct (Qle_bool (duration p) timeout) eqn:E; [|done].
  apply Qle_bool_iff in E. by apply Qlt_not_le in Hlt.
Qed.

(** X12.  All that [show] does to the world: it clears the shared cache
    first, then either nothing more, or the handler logs the error and
    [show] returns two empty strings, or exactly one item is executed. *)
Theorem show_events (w : World) (self : Menu) (last : str) (timeout : Q) :
  snd (show w self last timeout []) = [SharedCleared]
  \/ (snd (show w self last timeout []) = [SharedCleared; ErrorLogged]
      /\ fst (show w self last timeout []) = Ok ([], []))
  \/ exists item,
       snd (show w self last timeout []) = [SharedCleared; Executed item].
Proof.
  destruct (show w self last timeout []) as [r0 tr0] eqn:Hshow. simpl.
  unfold show, bindM at 1 in Hshow.
  destruct (show_resolve w self []) as [r tr] eqn:Hres.
  apply show_resolve_events in Hres as [[-> Hr]|[-> ->]].
  - destruct r as [[[title instances]|]|e]; simpl in Hshow;
      [|done|left; by simplify_eq].
    unfold bindM, liftM in Hshow.
    destruct (Interface_run _ _ _ _ _ _) as [[a o]|e]; simpl in Hshow;
      [|left; by simplify_eq].
    apply show_act_events in Hshow as [->|(item & -> & _)].
    + by left.
    + right. right. by exists item.
  - right. left. unfold retM in Hshow. by simplify_eq.
Qed.

(** X13.  An item that [show] executes is visible: it is one of the
    children built for this call, with its menu line set, and its text is
    not empty. *)
Theorem show_executes_visible (w : World) (self : Menu) (last : str)
    (timeout : Q) (item : BaseItem) :
  Executed item ∈ snd (show w self last timeout []) ->
  visible item = true /\
  exists title instances tr instance line,
    show_resolve w self [] = (Ok (Some (title, instances)), tr) /\
    instance ∈ instances /\
    item = set_menu_text line instance.
Proof.
  unfold show, bindM at 1.
  destruct (show_resolve w self []) as [r tr] eqn:Hres.
  pose proof (show_resolve_events _ _ _ _ _ Hres) as Hev.
  assert (Hno : forall l, Executed item ∈ tr ++ l -> Executed item ∈ l).
  { intros l Hin. apply elem_of_app in Hin as [Hin|Hin]; [|done].
    destruct Hev as [[-> _]|[-> _]];
      repeat (apply elem_of_cons in Hin as [Hin|Hin]; [done|]);
      by apply elem_of_nil in Hin. }
  destruct r as [[[title instances]|]|e]; simpl.
  - unfold bindM, liftM.
    destruct (Interface_run _ _ _ _ _ _) as [[a o]|e] eqn:Hrun; simpl.
    + destruct (show_act w timeout a o tr) as [r' tr'] eqn:Hact.
      simpl. intros Hin.
      apply show_act_events in Hact
        as [->|(item' & -> & -> & Ht & -> & Hty)].
      * rewrite <- (app_nil_r tr) in Hin. apply Hno in Hin.
        by apply elem_of_nil in Hin.
      * apply Hno, list_elem_of_singleton in Hin. simplify_eq.
        apply Interface_run_item in Hrun.
        rewrite format_items_text_map in Hrun.
        apply list_elem_of_In, in_map_iff in Hrun as (instance & <- & Hin).
        unfold visible_items in Hin. apply filter_In in Hin as [Hin Hvis].
        split; [done|].
        exists title, instances, tr, instance. eexists.
        split; [done|]. split; [by apply list_elem_of_In|done].
    + intros Hin. rewrite <- (app_nil_r tr) in Hin. apply Hno in Hin.
      by apply elem_of_nil in Hin.
  - intros Hin. rewrite <- (app_nil_r tr) in Hin. apply Hno in Hin.
    by apply elem_of_nil in Hin.
  - intros Hin. rewrite <- (app_nil_r tr) in Hin. apply Hno in Hin.
    by apply elem_of_nil in Hin.
Qed.

(** X14.  When the picker takes longer than a loop timeout that is not
    zero, [show] returns [restart] with no identifier and executes
    nothing, whatever the picker would have answered. *)
Theorem show_picker_timeout (w : World) (self : Menu) (last title : str)
    (timeout : Q) (instances : list BaseItem) (tr : list event) :
  show_resolve w self [] = (Ok (Some (title, instances)), tr) ->
  truthy timeout = true ->
  (forall t row lines, (timeout < duration (w_picker w t row lines))%Q) ->
  show w self last timeout [] = (Ok (py "restart", []), tr).
Proof.
  intros Hres Ht Hslow. unfold show, bindM at 1. rewrite Hres.
  unfold bindM, liftM, Interface_run.
  destruct (interface (configuration self)).
  - unfold Rofi_run_menu. by rewrite timeout_raised_slow.
  - unfold Fzf_run_menu. by rewrite timeout_raised_slow.
Qed.

End ShowMore.

Section ShowMoreExamples.

(** A picker whose user never answers within ten seconds. *)
Definition slow_world : World :=
  mkWorld true false (fun i => Ok (texts i))
    (fun _ row lines => mkPickerRun [] 0 10) (fun _ => Ok tt).

Lemma show_executes_visible_witness :
  visible hello_rendered = true /\
  exists title instances tr instance line,
    show_resolve echo_world hello_menu []
    = (Ok (Some (title, instances)), tr) /\
    instance ∈ instances /\
    hello_rendered = set_menu_text line instance.
Proof.
  apply (show_executes_visible echo_world hello_menu [] 0 hello_rendered).
  apply list_elem_of_In. vm_compute. right. left. reflexivity.
Defined.

Lemma show_picker_timeout_witness :
  show slow_world hello_menu [] 5 [] = (Ok (py "restart", []), [SharedCleared]).
Proof.
  apply (show_picker_timeout slow_world hello_menu [] (py "Menu") 5
           [hello_instance] [SharedCleared]); reflexivity.
Defined.

End ShowMoreExamples.

(** ** Constructors, inline menus and the cache, continued *)

Section ItemsMore.
Import PyStr.

(** X15.  [ItemZerotierNetwork] is built exactly from the values of two
    fields.  Its texts are then the default ones and its value is the raw
    value: such a value is too short to carry a text prefix.  Any other
    number of fields is a [ValueError]. *)
Theorem ItemZerotierNetwork_init_fields (cfg : Configuration)
    (d value0 : str) (tokens : list str) :
  delimiter cfg = Ok d ->
  split value0 d = Ok tokens ->
  ItemZerotierNetwork_init cfg value0
  = match tokens with
    | [network_id; network_name] =>
        Ok (mkBaseItem (py "ItemZerotierNetwork") ItemTexts_default value0
              value0 [network_id; network_name])
    | _ => Raise ValueError
    end.
Proof.
  intros Hd Hs. unfold ItemZerotierNetwork_init, BaseItem_init.
  rewrite Hd. cbn [bind]. unfold str2item_texts. rewrite Hs. cbn [bind].
  destruct tokens as [|t0 [|t1 [|t2 [|t3 [|t4 rest]]]]]; try done.
  all: destruct (ItemTextType_by_name (strip t0)); done.
Qed.

Lemma ItemZerotierNetwork_init_fields_witness :
  ItemZerotierNetwork_init (default_configuration rofi)
    (py "8056c2e21c000001::home")
  = Ok (mkBaseItem (py "ItemZerotierNetwork") ItemTexts_default
          (py "8056c2e21c000001::home") (py "8056c2e21c000001::home")
          [py "8056c2e21c000001"; py "home"]).
Proof.
  exact (ItemZerotierNetwork_init_fields (default_configuration rofi)
           (py "::") (py "8056c2e21c000001::home")
           [py "8056c2e21c000001"; py "home"] eq_refl eq_refl).
Defined.

(** X16.  [MenuInline.set_items] reads one child from every entry of its
    value: for entries without the first character of the level-0
    separator, the children of their join are the results of
    [get_item_type_value] on the entries, in order, and the first entry
    that fails decides the exception. *)
Theorem MenuInline_set_items_entries (cfg : Configuration) (c : N)
    (d : str) (others entries : list str) :
  token_separators cfg = (c :: d) :: others ->
  entries <> [] ->
  Forall (fun e => c ∉ e) entries ->
  MenuInline_set_items cfg (join (c :: d) entries)
  = map_result
      (fun e => get_item_type_value e (token_separators cfg)) entries.
Proof.
  intros Hsep Hne Hfree. unfold MenuInline_set_items, delimiter, split.
  rewrite Hsep. cbn [bind]. by rewrite split_scan_join.
Qed.

Lemma MenuInline_set_items_entries_witness :
  MenuInline_set_items (default_configuration rofi)
    (join (py "::") [py "item_external,,notify-send,,hello";
                     py "systemdunit,,user,,foo.service";
                     py "zerotiernetwork,,abc,,home"])
  = Ok [(ItemExternal_cls, py "notify-send::hello");
        (ItemSystemdUnit_cls, py "user::foo.service");
        (ItemZerotierNetwork_cls, py "abc::home")].
Proof.
  apply (MenuInline_set_items_entries (default_configuration rofi) 58%N
           (py ":") [py ",,"; py ";;"]).
  - reflexivity.
  - discriminate.
  - repeat (apply Forall_cons; split;
            [apply (bool_decide_eq_false_1 (58%N ∈ _)); vm_compute;
             reflexivity|]).
    by apply Forall_nil.
Defined.

(** X17.  An inline menu with an empty value has one entry, the empty
    one, whose name is no item: [set_items] ends the program with the
    exit status 1. *)
Theorem MenuInline_set_items_empty (cfg : Configuration) (d0 d1 : str)
    (others : list str) :
  token_separators cfg = d0 :: d1 :: others ->
  d0 <> [] -> d1 <> [] ->
  MenuInline_set_items cfg [] = Raise (SystemExit 1).
Proof.
  intros Hsep H0 H1. unfold MenuInline_set_items, delimiter.
  rewrite Hsep. destruct d0 as [|c0 d0]; [done|].
  destruct d1 as [|c1 d1]; [done|]. cbn [bind split].
  simpl map_result. unfold get_item_type_value, separator.
  by simpl.
Qed.

Lemma MenuInline_set_items_empty_witness :
  MenuInline_set_items (default_configuration fzf) [] = Raise (SystemExit 1).
Proof.
  apply (MenuInline_set_items_empty (default_configuration fzf) (py "::")
           (py ",,") [py ";;"]); [reflexivity|discriminate|discriminate].
Defined.

End ItemsMore.

Section CacheMore.
Import SharedCache.

(** The first call of [MenuAudioNode] has taken the lock. *)
Definition after_first_acquire : state nat :=
  default (initial three_calls) (run [(0, Raises)] (initial three_calls)).

Lemma reachable_after_first_acquire :
  reachable three_calls after_first_acquire.
Proof. apply (run_reachable [(0, Raises)]). vm_compute. reflexivity. Qed.

Lemma get_shared_data_exclusive_witness : 0 = 0.
Proof.
  apply (get_shared_data_exclusive three_calls after_first_acquire node
           0 0 InLock InLock reachable_after_first_acquire);
    reflexivity.
Defined.

Lemma get_shared_data_at_most_once_witness :
  calls_of node after_interleaved <= 1.
Proof.
  apply (get_shared_data_at_most_once three_calls after_interleaved node).
  - apply (run_reachable interleaved). vm_compute. reflexivity.
  - intros [|[|[|i]]]; vm_compute; discriminate.
Defined.

Lemma get_shared_data_progress_witness :
  exists s', step after_first_acquire s'.
Proof.
  apply (get_shared_data_progress three_calls after_first_acquire 2 node
           Start reachable_after_first_acquire);
    [reflexivity|discriminate|discriminate].
Defined.

End CacheMore.

(** ** The options of a menu *)

Section MenuOptionsFacts.
Import PyStr.

Variable parse_int : str -> result Z.
Variable parse_float : str -> result Q.

(** The options of a value made of tokens without the first character of
    the separator are those of the tokens. *)
Lemma value2menu_options_join (cfg : Configuration) (c : N) (d : str)
    (others tokens : list str) :
  token_separators cfg = (c :: d) :: others ->
  tokens <> [] ->
  Forall (fun t => c ∉ t) tokens ->
  value2menu_options parse_int parse_float cfg (join (c :: d) tokens)
  = bind (menu_options_scan parse_int parse_float (py "Menu") true 0 tokens)
      (fun '(title, keep_opened0, loop_timeout0, tokens') =>
         Ok (title, keep_opened0, loop_timeout0, join (c :: d) tokens')).
Proof.
  intros Hsep Hne Hfree. unfold value2menu_options, separator, split.
  rewrite Hsep. cbn [lookup list_lookup bind].
  by rewrite split_scan_join.
Qed.

(** X18.  A value whose first field is no option name has no options: the
    title is [Menu], the menu stays opened, there is no loop timeout, and
    the value is left as it is.  (For a value of ASCII characters, where
    [lower] is the one of Python.) *)
Theorem value2menu_options_plain (cfg : Configuration) (d value0 t0 : str)
    (others rest : list str) :
  token_separators cfg = d :: others ->
  Forall (fun c => (c < 128)%N) value0 ->
  split value0 d = Ok (t0 :: rest) ->
  menu_option_of t0 = None ->
  value2menu_options parse_int parse_float cfg value0
  = Ok (py "Menu", true, 0%Q, value0).
Proof.
  intros Hsep _ Hsplit Hopt. unfold value2menu_options, separator.
  rewrite Hsep. cbn [lookup list_lookup bind]. rewrite Hsplit. cbn [bind].
  simpl menu_options_scan. rewrite Hopt. cbn [bind].
  destruct d as [|c d]; [done|]. unfold split in Hsplit.
  injection Hsplit as <-. by rewrite join_split_scan.
Qed.

(** X19.  A value that is only the name of an option, in any case and
    with blanks around it, has no field for the option:
    [value2menu_options] raises [IndexError]. *)
Theorem value2menu_options_dangling (cfg : Configuration) (d value0 : str)
    (others : list str) (o : menu_option) :
  token_separators cfg = d :: others ->
  d <> [] ->
  ~ occurs d value0 ->
  menu_option_of value0 = Some o ->
  value2menu_options parse_int parse_float cfg value0 = Raise IndexError.
Proof.
  intros Hsep Hd Hfree Hopt. unfold value2menu_options, separator.
  rewrite Hsep. cbn [lookup list_lookup bind].
  destruct d as [|c d]; [done|]. unfold split. cbn [bind].
  rewrite split_scan_no_occurrence by done.
  simpl menu_options_scan. rewrite Hopt. by destruct o.
Qed.

(** X20.  The value that [main_async] joins for the command [menu] gives
    back the title and the two options, and an empty value, when no field
    holds the first character of the separator: the menu that
    [Menu.__init__] builds has them, and its texts are the default ones. *)
Theorem Menu_init_main (cfg : Configuration) (c : N) (d : str)
    (others : list str) (items : list (ItemClass * str))
    (title lt_text ko_text : str) (lt : Q) (n : Z) :
  token_separators cfg = (c :: d) :: others ->
  Forall (fun t => c ∉ t)
    [py "title"; title; py "loop-timeout"; lt_text; py "keep-opened";
     ko_text] ->
  parse_float lt_text = Ok lt ->
  parse_int ko_text = Ok n ->
  let value0 :=
    join (c :: d)
      [py "title"; title; py "loop-timeout"; lt_text; py "keep-opened";
       ko_text] in
  Menu_init parse_int parse_float items cfg value0
  = Ok (mkBaseItem (py "Menu") ItemTexts_default [] value0 [],
        mkMenu (py "Menu") title (negb (n =? 0)%Z) lt items cfg (Ok items)
          (Ok title)).
Proof.
  intros Hsep Hfree Hlt Hko value0.
  unfold Menu_init, BaseItem_init, delimiter. rewrite Hsep. cbn [bind].
  unfold str2item_texts, split. cbn [bind]. unfold value0 at 1.
  rewrite split_scan_join by done. cbn [bind value].
  change (ItemTextType_by_name (strip (py "title"))) with (@None ItemTextType).
  cbn [bind value]. unfold value0 at 1.
  rewrite (value2menu_options_join cfg c d others) by done.
  simpl menu_options_scan.
  change (menu_option_of (py "title")) with (Some title_option).
  change (menu_option_of (py "loop-timeout")) with (Some loop_timeout_option).
  change (menu_option_of (py "keep-opened")) with (Some keep_opened_option).
  rewrite Hlt. cbn [bind]. rewrite Hko. by cbn [bind].
Qed.

(** X21.  A title that holds the separator ends the options early: the
    title is cut at the separator, the options that follow it are not
    read (the menu stays opened and has no loop timeout, whatever they
    say), and they stay in the value with the rest of the title.  (For a
    rest [b] of ASCII characters that is no option name.) *)
Theorem value2menu_options_title_cut (cfg : Configuration) (c : N)
    (d : str) (others : list str) (a b lt_text ko_text : str) :
  token_separators cfg = (c :: d) :: others ->
  Forall (fun t => c ∉ t)
    [py "title"; a; b; py "loop-timeout"; lt_text; py "keep-opened";
     ko_text] ->
  Forall (fun x => (x < 128)%N) b ->
  menu_option_of b = None ->
  value2menu_options parse_int parse_float cfg
    (join (c :: d)
       [py "title"; a ++ (c :: d) ++ b; py "loop-timeout"; lt_text;
        py "keep-opened"; ko_text])
  = Ok (a, true, 0%Q,
        join (c :: d)
          [b; py "loop-timeout"; lt_text; py "keep-opened"; ko_text]).
Proof.
  intros Hsep Hfree _ Hopt.
  assert (join (c :: d)
            [py "title"; a ++ (c :: d) ++ b; py "loop-timeout"; lt_text;
             py "keep-opened"; ko_text]
          = join (c :: d)
              [py "title"; a; b; py "loop-timeout"; lt_text;
               py "keep-opened"; ko_text]) as ->.
  { cbn [join]. by rewrite <- !app_assoc. }
  rewrite (value2menu_options_join cfg c d others) by done.
  simpl menu_options_scan.
  change (menu_option_of (py "title")) with (Some title_option).
  by rewrite Hopt.
Qed.

End MenuOptionsFacts.

Section MenuOptionsExamples.
Import PyStr.

(** [int] and [float] on the texts that [main_async] writes for the flags
    of these examples. *)
Definition int_of_flag (s : str) : result Z :=
  if eqb s (py "0") then Ok 0%Z
  else if eqb s (py "1") then Ok 1%Z
  else Raise ValueError.

Definition float_of_flag (s : str) : result Q :=
  if eqb s (py "0.0") then Ok 0%Q
  else if eqb s (py "2.5") then Ok (5 # 2)%Q
  else Raise ValueError.

Lemma value2menu_options_plain_witness :
  value2menu_options int_of_flag float_of_flag (default_configuration rofi)
    (py "systemdunit,,user,,foo.service::item")
  = Ok (py "Menu", true, 0%Q, py "systemdunit,,user,,foo.service::item").
Proof.
  apply (value2menu_options_plain int_of_flag float_of_flag
           (default_configuration rofi) (py "::")
           (py "systemdunit,,user,,foo.service::item")
           (py "systemdunit,,user,,foo.service") [py ",,"; py ";;"]
           [py "item"]).
  - reflexivity.
  - repeat (apply Forall_cons; split; [reflexivity|]). by apply Forall_nil.
  - reflexivity.
  - reflexivity.
Defined.

Lemma value2menu_options_dangling_witness :
  value2menu_options int_of_flag float_of_flag (default_configuration rofi)
    (py " Keep-Opened ")
  = Raise IndexError.
Proof.
  apply (value2menu_options_dangling int_of_flag float_of_flag
           (default_configuration rofi) (py "::") (py " Keep-Opened ")
           [py ",,"; py ";;"] keep_opened_option).
  - reflexivity.
  - discriminate.
  - intros [x [y H]]. vm_compute in H.
    repeat (destruct x as [|? x]; [discriminate H|];
            injection H as _ H).
    destruct x; discriminate H.
  - reflexivity.
Defined.

Lemma Menu_init_main_witness :
  Menu_init int_of_flag float_of_flag [(ItemExternal, hello_value)]
    (default_configuration rofi)
    (py "title::Network::loop-timeout::2.5::keep-opened::0")
  = Ok (mkBaseItem (py "Menu") ItemTexts_default []
          (py "title::Network::loop-timeout::2.5::keep-opened::0") [],
        mkMenu (py "Menu") (py "Network") false (5 # 2)%Q
          [(ItemExternal, hello_value)] (default_configuration rofi)
          (Ok [(ItemExternal, hello_value)]) (Ok (py "Network"))).
Proof.
  apply (Menu_init_main int_of_flag float_of_flag
           (default_configuration rofi) 58%N (py ":") [py ",,"; py ";;"]
           [(ItemExternal, hello_value)] (py "Network") (py "2.5") (py "0")
           (5 # 2)%Q 0%Z).
  - reflexivity.
  - repeat (apply Forall_cons; split;
            [apply (bool_decide_eq_false_1 (58%N ∈ _)); vm_compute;
             reflexivity|]).
    by apply Forall_nil.
  - reflexivity.
  - reflexivity.
Defined.

Lemma value2menu_options_title_cut_witness :
  value2menu_options int_of_flag float_of_flag (default_configuration rofi)
    (py "title::Net::work::loop-timeout::2.5::keep-opened::0")
  = Ok (py "Net", true, 0%Q, py "work::loop-timeout::2.5::keep-opened::0").
Proof.
  apply (value2menu_options_title_cut int_of_flag float_of_flag
           (default_configuration rofi) 58%N (py ":") [py ",,"; py ";;"]
           (py "Net") (py "work") (py "2.5") (py "0")).
  - reflexivity.
  - repeat (apply Forall_cons; split;
            [apply (bool_decide_eq_false_1 (58%N ∈ _)); vm_compute;
             reflexivity|]).
    by apply Forall_nil.
  - repeat (apply Forall_cons; split; [reflexivity|]). by apply Forall_nil.
  - reflexivity.
Defined.

End MenuOptionsExamples.

(** ** Menu.execute *)

Section ExecuteFacts.
Import PyStr.

(** The events of one [show], after those already in the trace. *)
Lemma show_trace (w : World) (self : Menu) (last : str) (timeout : Q)
    (tr0 : list event) :
  exists evs,
    snd (show w self last timeout tr0) = tr0 ++ evs /\
    (truthy timeout = true -> forall item, Executed item ∉ evs).
Proof.
  destruct (show w self last timeout tr0) as [r1 tr1] eqn:Hshow. simpl.
  unfold show, bindM at 1 in Hshow.
  destruct (show_resolve w self tr0) as [r tr] eqn:Hres.
  assert (exists evs0, tr = tr0 ++ evs0 /\ forall item, Executed item ∉ evs0)
    as (evs0 & -> & Hevs0).
  { apply show_resolve_events in Hres as [[-> _]|[-> _]];
      eexists; (split; [done|]); intros item Hin;
      repeat (apply elem_of_cons in Hin as [Hin|Hin]; [done|]);
      by apply elem_of_nil in Hin. }
  assert (Hsame : exists evs, tr0 ++ evs0 = tr0 ++ evs /\
            (truthy timeout = true -> forall item, Executed item ∉ evs)).
  { exists evs0. split; [done|]. intros _. apply Hevs0. }
  destruct r as [[[title instances]|]|e]; simpl in Hshow;
    [|unfold retM in Hshow; by simplify_eq|by simplify_eq].
  unfold bindM, liftM in Hshow.
  destruct (Interface_run _ _ _ _ _ _) as [[a o]|e]; simpl in Hshow;
    [|by simplify_eq].
  apply show_act_events in Hshow as [->|(item & -> & _ & Ht & _)]; [done|].
  exists (evs0 ++ [Executed item]). split; [by rewrite app_assoc|].
  intros Ht'. by rewrite Ht in Ht'.
Qed.

(** X22.  As long as the hooks leave the loop timeout different from
    zero (the class [Menu] itself never changes it), the first loop of
    [execute] executes no item, however many times the menu is shown and
    whatever the user selects. *)
Theorem execute_loop_executes_nothing (self : Menu)
    (calls0 : list show_call) (selection : str) (tr0 : list event) :
  truthy (loop_timeout self) = true ->
  Forall (fun c => truthy (loop_timeout (call_self c)) = true) calls0 ->
  exists evs,
    snd (execute_loop self selection calls0 tr0) = tr0 ++ evs /\
    forall item, Executed item ∉ evs.
Proof.
  intros Ht Hall. revert self Ht selection tr0.
  induction Hall as [|c calls0 Hc Hall IH]; intros self Ht selection tr0.
  - exists []. split; [by rewrite app_nil_r|]. intros item Hin.
    by apply elem_of_nil in Hin.
  - simpl. unfold bindM.
    destruct (show_trace (call_world c) (call_self c) selection
                (loop_timeout self) tr0) as (evs & Hevs & Hno).
    destruct (show (call_world c) (call_self c) selection
                (loop_timeout self) tr0) as [r tr].
    simpl in Hevs. subst tr. specialize (Hno Ht).
    destruct r as [[a id]|e]; [|by exists evs].
    simpl. destruct (leaves_menu a); [by exists evs|].
    destruct (IH (call_self c) Hc id (tr0 ++ evs)) as (evs' & -> & Hno').
    exists (evs ++ evs'). split; [by rewrite app_assoc|].
    intros item Hin. apply elem_of_app in Hin as [Hin|Hin].
    + by apply (Hno item).
    + by apply (Hno' item).
Qed.

(** X23.  A menu built without loop timeout, and whose [keep_opened] is
    false when the hooks of the first [show] have run, is shown once:
    [execute] ends with the first [show], whatever the answer, and raises
    what it raises. *)
Theorem execute_run_once (self : Menu) (c : show_call)
    (calls0 : list show_call) (tr0 : list event) :
  truthy (loop_timeout self) = false ->
  keep_opened (call_self c) = false ->
  Menu_execute self (c :: calls0) tr0
  = (match fst (show (call_world c) (call_self c) [] 0 tr0) with
     | Ok _ => Ok (Some tt)
     | Raise e => Raise e
     end, snd (show (call_world c) (call_self c) [] 0 tr0)).
Proof.
  intros Ht Hko. unfold Menu_execute. rewrite Ht.
  unfold bindM at 1. unfold retM at 1. simpl. unfold bindM. rewrite Hko.
  by destruct (show (call_world c) (call_self c) [] 0 tr0) as [[r|e] tr].
Qed.

(** X24.  The second loop of [execute] is left in two ways only: when it
    ends normally, one of its calls of [show] has returned, and either
    the hooks of that call left [keep_opened] false, or the action it
    returned is [back] or the empty one of the error handler. *)
Theorem execute_normally_leaves (calls0 : list show_call)
    (selection : str) (tr0 : list event) :
  fst (execute_normally selection calls0 tr0) = Ok (Some tt) ->
  exists c last tr action id,
    c ∈ calls0 /\
    fst (show (call_world c) (call_self c) last 0 tr) = Ok (action, id) /\
    (keep_opened (call_self c) = false \/
     action = py "back" \/ action = []).
Proof.
  revert selection tr0.
  induction calls0 as [|c calls0 IH]; intros selection tr0; [done|].
  simpl. unfold bindM.
  destruct (show (call_world c) (call_self c) selection 0 tr0)
    as [[[a id]|e] tr] eqn:Hshow; [|done].
  simpl.
  destruct (negb (keep_opened (call_self c)) || leaves_menu a) eqn:Hleave.
  - intros _. exists c, selection, tr0, a, id.
    split; [apply elem_of_cons; by left|]. rewrite Hshow.
    split; [done|].
    apply orb_true_iff in Hleave as [H|H].
    + left. by apply negb_true_iff in H.
    + right. unfold leaves_menu in H.
      apply orb_true_iff in H as [H|H]; apply eqb_eq in H; auto.
  - intros Hend.
    destruct (IH id tr Hend) as (c' & last & tr' & a' & id' & Hin & H).
    exists c', last, tr', a', id'. split; [|done].
    apply elem_of_cons. by right.
Qed.

End ExecuteFacts.

Section ExecuteExamples.

(** A menu of one item with a loop timeout of five seconds. *)
Definition hello_loop_menu : Menu :=
  mkMenu (py "Menu") (py "Menu") true 5 [(ItemExternal, hello_value)]
    (default_configuration rofi) (Ok [(ItemExternal, hello_value)])
    (Ok (py "Menu")).

(** The same menu, for one selection. *)
Definition hello_once_menu : Menu :=
  mkMenu (py "Menu") (py "Menu") false 0 [(ItemExternal, hello_value)]
    (default_configuration rofi) (Ok [(ItemExternal, hello_value)])
    (Ok (py "Menu")).

(** A picker whose user presses escape (rofi ends with the status 1). *)
Definition escape_world : World :=
  mkWorld true false (fun i => Ok (texts i))
    (fun _ row lines => mkPickerRun [] 1 1) (fun _ => Ok tt).

(** The calls of [show] of a menu whose hooks change nothing, as those
    of the class [Menu]. *)
Definition unchanged (self : Menu) (worlds : list World) : list show_call :=
  map (fun w => mkShowCall w self) worlds.

Lemma execute_loop_executes_nothing_witness :
  exists evs,
    snd (execute_loop hello_loop_menu []
           (unchanged hello_loop_menu [slow_world; echo_world]) [])
    = [] ++ evs /\
    forall item, Executed item ∉ evs.
Proof.
  apply (execute_loop_executes_nothing hello_loop_menu
           (unchanged hello_loop_menu [slow_world; echo_world]) [] []).
  - reflexivity.
  - repeat (apply Forall_cons; split; [reflexivity|]). by apply Forall_nil.
Defined.

(** When [set_items] of the first call sets the loop timeout to zero, as
    [MenuExternal.set_items] can, the first loop goes on and the second
    call of [show] executes the item selected. *)
Example execute_loop_after_reset :
  snd (execute_loop hello_loop_menu []
         (unchanged hello_menu [slow_world; echo_world]) [])
  = [SharedCleared; SharedCleared; Executed hello_rendered].
Proof. reflexivity. Qed.

Lemma execute_run_once_witness :
  Menu_execute hello_once_menu
    (unchanged hello_once_menu [echo_world; escape_world]) []
  = (Ok (Some tt), [SharedCleared; Executed hello_rendered]).
Proof.
  apply (execute_run_once hello_once_menu
           (mkShowCall echo_world hello_once_menu)
           (unchanged hello_once_menu [escape_world]) []);
    reflexivity.
Defined.

(** A menu that is kept opened, and whose [set_items] clears
    [keep_opened] at the second call, ends there. *)
Example execute_keep_opened_cleared :
  Menu_execute hello_menu
    [mkShowCall echo_world hello_menu; mkShowCall echo_world hello_once_menu;
     mkShowCall echo_world hello_menu] []
  = (Ok (Some tt),
     [SharedCleared; Executed hello_rendered;
      SharedCleared; Executed hello_rendered]).
Proof. reflexivity. Qed.

Lemma execute_normally_leaves_witness :
  exists c last tr action id,
    c ∈ unchanged hello_menu [echo_world; escape_world] /\
    fst (show (call_world c) (call_self c) last 0 tr) = Ok (action, id) /\
    (keep_opened (call_self c) = false \/
     action = py "back" \/ action = []).
Proof.
  apply (execute_normally_leaves
           (unchanged hello_menu [echo_world; escape_world]) [] []);
    reflexivity.
Defined.

End ExecuteExamples.
